(** * Zabbix graph downloader: a shallow embedding of [main.py]

    The development follows the source file top to bottom: the module
    constants, the two API calls, the URL builder, the retrying download,
    the login, the file name sanitizer, the queue builder, the threaded
    download of the queue, and [main].

    Conventions of the embedding.
    - A Python [str] is a Rocq [string]: the text given by its UTF-8 bytes.
      The nine forbidden symbols, the separators and the characters that
      [quote] keeps are ASCII, and no byte of a multi-byte UTF-8 sequence is
      ASCII, so deleting or escaping bytes agrees with doing so on code
      points.
    - A [dict] is an association list in insertion order ([PyDict]).
    - Effects are explicit: a computation takes the world (file system and
      the trace of what the process did) and returns a normal result or a
      raised exception together with the new world.
    - The network is an oracle: the answer of the server to each request.
    - The file system is a finite map from paths to contents and a finite
      set of directories; its operations succeed. *)

From Stdlib Require Import ZArith Ascii String List Bool Lia DecimalString.
From stdpp Require Import base gmap strings list fin_maps.

Local Open Scope string_scope.
Local Open Scope list_scope.

(** [simpl] may unfold the append of strings. *)
#[local] Arguments String.append !s1 s2 : simpl nomatch.

(** ** Text helpers *)

Module Text.

(** [s.startswith(p)] *)
Fixpoint startswith (p s : string) : bool :=
  match p, s with
  | EmptyString, _ => true
  | String a p', String b s' => if Ascii.eqb a b then startswith p' s' else false
  | String _ _, EmptyString => false
  end.

(** The scan of [str.replace old new] for a non-empty [old]: left to right,
    non-overlapping.  [skip] counts the characters of a match that are still
    to be passed over. *)
Fixpoint replace_scan (old new : string) (skip : nat) (s : string) : string :=
  match s with
  | EmptyString => EmptyString
  | String c s' =>
      match skip with
      | S k => replace_scan old new k s'
      | O =>
          if startswith old s
          then new +:+ replace_scan old new (String.length old - 1) s'
          else String c (replace_scan old new 0 s')
      end
  end.

(** With an empty [old], Python puts [new] before every character and at
    the end. *)
Fixpoint replace_empty (new s : string) : string :=
  match s with
  | EmptyString => new
  | String c s' => new +:+ String c (replace_empty new s')
  end.

(** [s.replace(old, new)] *)
Definition replace (old new s : string) : string :=
  match old with
  | EmptyString => replace_empty new s
  | String _ _ => replace_scan old new 0 s
  end.

(** The characters of [s] that satisfy [keep], in order. *)
Fixpoint filter_chars (keep : ascii -> bool) (s : string) : string :=
  match s with
  | EmptyString => EmptyString
  | String c s' =>
      if keep c then String c (filter_chars keep s') else filter_chars keep s'
  end.

(** [c in s] for a character [c] *)
Fixpoint contains (c : ascii) (s : string) : bool :=
  match s with
  | EmptyString => false
  | String d s' => if Ascii.eqb c d then true else contains c s'
  end.

(** [sep.join(parts)] *)
Fixpoint join (sep : string) (parts : list string) : string :=
  match parts with
  | [] => EmptyString
  | [p] => p
  | p :: rest => p +:+ sep +:+ join sep rest
  end.

(** [s.split(sep)] for a one-character separator: the current piece is
    accumulated in [cur]. *)
Fixpoint split_from (sep : ascii) (cur : string) (s : string) : list string :=
  match s with
  | EmptyString => [cur]
  | String c s' =>
      if Ascii.eqb c sep
      then cur :: split_from sep EmptyString s'
      else split_from sep (cur +:+ String c EmptyString) s'
  end.

Definition split (sep : ascii) (s : string) : list string :=
  split_from sep EmptyString s.

End Text.

(** ** Module constants *)

(** [FORBIDDEN_SYMBOLS] (line 27) *)
Definition FORBIDDEN_SYMBOLS : list string :=
  ["<"; ">"; ":"; String (ascii_of_nat 34) EmptyString; "/"; "\"; "|"; "?"; "*"].

(** ** [sanitize_filename] (lines 213-226) *)

Definition sanitize_filename (filename : string) : string :=
  fold_left (fun sanitized_name symbol => Text.replace symbol "" sanitized_name)
            FORBIDDEN_SYMBOLS filename.

(** The nine characters of the denylist, as a predicate. *)
Definition forbidden_char (c : ascii) : bool :=
  existsb (fun symbol => String.eqb symbol (String c EmptyString)) FORBIDDEN_SYMBOLS.

(** ** Dictionaries in insertion order *)

Module PyDict.

Definition dict (V : Type) : Type := list (string * V).

(** [d.get(k)] *)
Fixpoint dict_get {V} (k : string) (d : dict V) : option V :=
  match d with
  | [] => None
  | (k', v) :: d' => if String.eqb k k' then Some v else dict_get k d'
  end.

(** [d[k] = v]: an existing key keeps its place, a new key goes last. *)
Fixpoint dict_set {V} (k : string) (v : V) (d : dict V) : dict V :=
  match d with
  | [] => [(k, v)]
  | (k', v') :: d' =>
      if String.eqb k k' then (k', v) :: d' else (k', v') :: dict_set k v d'
  end.

(** A dict display [{k1: v1, ..., kn: vn}] stores its pairs left to right. *)
Definition dict_of {V} (pairs : list (string * V)) : dict V :=
  fold_left (fun d kv => dict_set (fst kv) (snd kv) d) pairs [].

Definition keys {V} (d : dict V) : list string := map fst d.
Definition values {V} (d : dict V) : list V := map snd d.

End PyDict.

Import PyDict.

(** ** Time stamps *)

(** A [datetime.datetime], without the microsecond and time zone fields,
    which no format string of the program prints. *)
Record datetime := mk_datetime {
  year : nat; month : nat; day : nat;
  hour : nat; minute : nat; second : nat
}.

(** The ranges that [datetime] enforces on construction. *)
Definition datetime_valid (t : datetime) : Prop :=
  (1 <= Z.of_nat (year t) <= 9999)%Z /\
  (1 <= month t <= 12 /\ 1 <= day t <= 31 /\
   hour t <= 23 /\ minute t <= 59 /\ second t <= 59)%nat.

Fixpoint zeros (n : nat) : string :=
  match n with
  | O => EmptyString
  | S k => String "0" (zeros k)
  end.

(** A natural number in decimal, padded with zeros on the left to [width]. *)
Definition zero_padded (width n : nat) : string :=
  let digits := NilZero.string_of_uint (Nat.to_uint n) in
  zeros (width - String.length digits) +:+ digits.

(** One directive of [strftime]; the letters the program does not use are
    left as they are. *)
Definition strftime_directive (d : ascii) (t : datetime) : string :=
  if Ascii.eqb d "Y" then zero_padded 4 (year t)
  else if Ascii.eqb d "m" then zero_padded 2 (month t)
  else if Ascii.eqb d "d" then zero_padded 2 (day t)
  else if Ascii.eqb d "H" then zero_padded 2 (hour t)
  else if Ascii.eqb d "M" then zero_padded 2 (minute t)
  else if Ascii.eqb d "S" then zero_padded 2 (second t)
  else if Ascii.eqb d "%" then "%"
  else String "%" (String d EmptyString).

(** [t.strftime(fmt)], also what [f"{t:fmt}"] prints. *)
Fixpoint strftime (fmt : string) (t : datetime) : string :=
  match fmt with
  | EmptyString => EmptyString
  | String c rest =>
      if Ascii.eqb c "%" then
        match rest with
        | EmptyString => String c EmptyString
        | String d rest' => strftime_directive d t +:+ strftime rest' t
        end
      else String c (strftime rest t)
  end.

(** ** [urllib.parse.quote] *)

Definition is_upper (c : ascii) : bool :=
  (65 <=? nat_of_ascii c)%nat && (nat_of_ascii c <=? 90)%nat.
Definition is_lower (c : ascii) : bool :=
  (97 <=? nat_of_ascii c)%nat && (nat_of_ascii c <=? 122)%nat.
Definition is_digit (c : ascii) : bool :=
  (48 <=? nat_of_ascii c)%nat && (nat_of_ascii c <=? 57)%nat.

(** The characters [quote] never escapes: letters, digits and [_.-~]. *)
Definition always_safe (c : ascii) : bool :=
  is_upper c || is_lower c || is_digit c
  || Ascii.eqb c "_" || Ascii.eqb c "." || Ascii.eqb c "-" || Ascii.eqb c "~".

(** [quote] is called with its default [safe='/']. *)
Definition quote_safe (c : ascii) : bool := always_safe c || Ascii.eqb c "/".

(** One upper-case hexadecimal digit. *)
Definition hex_digit (n : nat) : ascii :=
  if (n <? 10)%nat then ascii_of_nat (48 + n) else ascii_of_nat (55 + n).

(** [%XX] for one byte. *)
Definition percent_escape (c : ascii) : string :=
  let n := nat_of_ascii c in
  String "%" (String (hex_digit (n / 16)) (String (hex_digit (n mod 16)) EmptyString)).

Definition quote_char (c : ascii) : string :=
  if quote_safe c then String c EmptyString else percent_escape c.

Fixpoint quote (s : string) : string :=
  match s with
  | EmptyString => EmptyString
  | String c s' => quote_char c +:+ quote s'
  end.

(** ** [generate_graph_url] (lines 103-141) *)

(** The values of the [params] dict: strings and integers. *)
Inductive pyval :=
| PStr (s : string)
| PInt (z : Z).

(** [str(v)] *)
Definition str (v : pyval) : string :=
  match v with
  | PStr s => s
  | PInt z => NilZero.string_of_int (Z.to_int z)
  end.

Definition generate_graph_url (zabbix_host : string) (start_time end_time : datetime)
    (item_id : string) (width height : Z) : string :=
  let base_url := "https://" +:+ zabbix_host +:+ "/chart.php" in
  let params : dict pyval := dict_of
    [ ("from", PStr (strftime "%Y-%m-%d %H:%M:%S" start_time));
      ("to", PStr (strftime "%Y-%m-%d %H:%M:%S" end_time));
      ("itemids[0]", PStr item_id);
      ("type", PStr "0");
      ("profileIdx", PStr "web.item.graph.filter");
      ("profileIdx2", PStr item_id);
      ("width", PInt width);
      ("height", PInt height) ] in
  let query_string :=
    Text.join "&" (map (fun kv => fst kv +:+ "=" +:+ quote (str (snd kv))) params) in
  base_url +:+ "?" +:+ query_string.

(** ** Exceptions, results and the world *)

(** The exceptions the program can meet.  [ConnectionError] and [ReadTimeout]
    are the transport failures of [requests]: they are [Exception]s but not
    [HTTPError]s. *)
Inductive exn :=
| HTTPError (status : Z)
| JSONDecodeError
| KeyError (key : string)
| IndexError
| ConnectionError
| ReadTimeout.

Inductive result (A : Type) :=
| Ok (a : A)
| Raise (e : exn).
Arguments Ok {A} a.
Arguments Raise {A} e.

(** A record of the API: [Dict[str, str]]. *)
Definition record : Type := dict string.

(** The body of a JSON-RPC call (lines 53-61 and 86-94). *)
Inductive rpc_params :=
| HostGetParams (output : list string) (filter_host : string)
| ItemGetParams (output : list string) (hostids : string).

Record rpc := mk_rpc {
  jsonrpc : string;
  method : string;
  params : rpc_params;
  id : Z
}.

(** What the process sends. *)
Inductive request :=
| SessionPost (url : string) (data : dict string)
| ApiPost (url : string) (json : rpc) (headers : dict string)
| ChartPost (url : string) (headers : dict string) (timeout : Z).

(** An HTTP response.  [parsed] stands for [json.loads(response.text)]:
    [None] when the text is not JSON, otherwise the fields of the object
    that hold lists of records (the program reads no other field). *)
Record response := mk_response {
  status_code : Z;
  content : string;
  parsed : option (dict (list record))
}.

(** The lines the program prints, one constructor per [print]. *)
Inductive message :=
| MsgSaved (file_path : string)
| MsgGotStatus (status : Z) (image_url : string) (attempt retry_count : nat)
| MsgDownloadError (image_url : string) (e : exn) (attempt retry_count : nat)
| MsgDownloadFailed (image_url : string) (retry_count : nat)
| MsgProcessingHost (host_name : string)
| MsgNoHostFound (host_name : string)
| MsgHostIdFailed (host_name : string) (e : exn)
| MsgItemsFailed (host_name : string) (e : exn)
| MsgSkipping (file_path : string)
| MsgNoImages
| MsgStarting (n : nat)
| MsgAllDone
| MsgAuthenticated
| MsgAuthHttpError (e : exn)
| MsgAuthFailed (e : exn).

(** What the process does to the outside. *)
Inductive event :=
| EvRequest (r : request)
| EvPrint (m : message)
| EvMakedirs (path : string)
| EvWrite (path : string) (data : string).

Record world := mk_world {
  files : gmap string string;
  dirs : gset string;
  cwd : string;
  trace : list event
}.

(** The servers.  The login and the API answer a request; the chart
    endpoint answers the [n]-th POST of one download ([n] from 0).  The jar
    is what [session.cookies.get_dict()] holds after the exchange. *)
Record network := mk_network {
  session_post : string -> dict string -> result (response * dict string);
  api_post : string -> rpc -> dict string -> result response;
  chart_post : string -> dict string -> nat -> result response
}.

(** The module-level names after import (lines 18-34).  [start_time] and
    [end_time] are [TIME_FROM] and [TIME_TILL] once parsed. *)
Record config := mk_config {
  ZABBIX_API_URL : string;
  ZABBIX_API_TOKEN : string;
  ZABBIX_HOST : string;
  WEB_UI_USERNAME : string;
  WEB_UI_PASSWORD : string;
  HOST_LIST : list string;
  start_time : datetime;
  end_time : datetime;
  RESULTING_IMAGE_WIDTH : Z;
  RESULTING_IMAGE_HEIGHT : Z;
  DOWNLOAD_RETRY_COUNT : nat
}.

(** Line 20: [ZABBIX_API_URL.split('/')[2] if ZABBIX_API_URL else ""];
    [None] is the [IndexError] of a URL with fewer than three pieces. *)
Definition zabbix_host_of (api_url : string) : option string :=
  if String.eqb api_url "" then Some ""
  else nth_error (Text.split "/" api_url) 2.

(** *** The monad of effects *)

Definition M (A : Type) : Type := world -> result A * world.

Definition ret {A} (a : A) : M A := fun w => (Ok a, w).
Definition raise {A} (e : exn) : M A := fun w => (Raise e, w).

Definition bind {A B} (m : M A) (k : A -> M B) : M B :=
  fun w =>
    match m w with
    | (Ok a, w') => k a w'
    | (Raise e, w') => (Raise e, w')
    end.

Notation "x <~ m ;; k" := (bind m (fun x => k))
  (at level 100, m at next level, right associativity).
Notation "m ;; k" := (bind m (fun _ => k))
  (at level 100, right associativity).

(** [try: body  except (classes) as e: handler e] *)
Definition try_except {A} (body : M A) (caught : exn -> bool) (handler : exn -> M A) : M A :=
  fun w =>
    match body w with
    | (Ok a, w') => (Ok a, w')
    | (Raise e, w') => if caught e then handler e w' else (Raise e, w')
    end.

Definition emit (ev : event) : M unit :=
  fun w => (Ok tt, mk_world (files w) (dirs w) (cwd w) (trace w ++ [ev])).

Definition print (m : message) : M unit := emit (EvPrint m).

(** A request goes out and the oracle's answer comes back. *)
Definition send {A} (r : request) (answer : result A) : M A :=
  emit (EvRequest r) ;; (fun w => (answer, w)).

(** *** The file system *)

Definition getcwd : M string := fun w => (Ok (cwd w), w).

(** [os.path.join(a, b)] (POSIX) *)
Definition os_path_join (a b : string) : string :=
  if Text.startswith "/" b then b
  else if String.eqb a "" then b
  else if Text.startswith "/" (String.rev a) then a +:+ b
  else a +:+ "/" +:+ b.

(** [os.path.exists(path)]: a file or a directory is there. *)
Definition path_exists (w : world) (path : string) : bool :=
  bool_decide (is_Some (files w !! path)) || bool_decide (path ∈ dirs w).

Definition os_path_exists (path : string) : M bool :=
  fun w => (Ok (path_exists w path), w).

(** [os.makedirs(path, exist_ok=True)] *)
Definition os_makedirs (path : string) : M unit :=
  fun w => (Ok tt, mk_world (files w) ({[path]} ∪ dirs w) (cwd w)
                            (trace w ++ [EvMakedirs path])).

(** [with open(path, 'wb') as f: f.write(data)] *)
Definition write_file (path data : string) : M unit :=
  fun w => (Ok tt, mk_world (<[path := data]> (files w)) (dirs w) (cwd w)
                            (trace w ++ [EvWrite path data])).

(** *** Pieces of Python the functions share *)

(** [d[k]] on a dict *)
Definition subscript {V} (d : dict V) (k : string) : M V :=
  match dict_get k d with
  | Some v => ret v
  | None => raise (KeyError k)
  end.

(** [response.raise_for_status()] *)
Definition raise_for_status (r : response) : M unit :=
  if ((400 <=? status_code r) && (status_code r <? 600))%Z
  then raise (HTTPError (status_code r))
  else ret tt.

(** [json.loads(response.text)] *)
Definition json_loads (r : response) : M (dict (list record)) :=
  match parsed r with
  | Some data => ret data
  | None => raise JSONDecodeError
  end.

(** ** [get_host_id] (lines 37-67) and [get_item_list] (lines 70-100) *)

Definition bearer_headers (cfg : config) : dict string :=
  dict_of [("Authorization", "Bearer " +:+ ZABBIX_API_TOKEN cfg)].

Definition host_get_payload (host_name : string) : rpc :=
  mk_rpc "2.0" "host.get" (HostGetParams ["hostid"] host_name) 1.

Definition item_get_payload (host_id : string) : rpc :=
  mk_rpc "2.0" "item.get" (ItemGetParams ["itemid"; "hostid"; "name"] host_id) 1.

Definition get_host_id (cfg : config) (net : network) (host_name : string)
  : M (list record) :=
  let headers := bearer_headers cfg in
  let payload := host_get_payload host_name in
  response <~ send (ApiPost (ZABBIX_API_URL cfg) payload headers)
                   (api_post net (ZABBIX_API_URL cfg) payload headers) ;;
  raise_for_status response ;;
  response_data <~ json_loads response ;;
  subscript response_data "result".

Definition get_item_list (cfg : config) (net : network) (host_id : string)
  : M (list record) :=
  let headers := bearer_headers cfg in
  let payload := item_get_payload host_id in
  response <~ send (ApiPost (ZABBIX_API_URL cfg) payload headers)
                   (api_post net (ZABBIX_API_URL cfg) payload headers) ;;
  raise_for_status response ;;
  response_data <~ json_loads response ;;
  subscript response_data "result".

(** ** [download_image] (lines 144-180) *)

(** One pass of the loop body: [true] is the [return True] of line 170,
    [false] falls through to the next attempt.  Every exception raised in
    the [try] is an [Exception], so the handler catches all of them. *)
Definition download_attempt (net : network) (image_url file_path : string)
    (cookies : dict string) (retry_count attempt : nat) : M bool :=
  try_except
    (response <~ send (ChartPost image_url cookies 30)
                      (chart_post net image_url cookies attempt) ;;
     if (status_code response =? 200)%Z then
       write_file file_path (content response) ;;
       print (MsgSaved file_path) ;;
       ret true
     else
       print (MsgGotStatus (status_code response) image_url (attempt + 1) retry_count) ;;
       ret false)
    (fun _ => true)
    (fun error =>
       print (MsgDownloadError image_url error (attempt + 1) retry_count) ;;
       ret false).

(** The loop [for attempt in range(retry_count)] with [todo] passes left,
    then lines 179-180. *)
Fixpoint download_attempts (net : network) (image_url file_path : string)
    (cookies : dict string) (retry_count todo attempt : nat) : M bool :=
  match todo with
  | O => print (MsgDownloadFailed image_url retry_count) ;; ret false
  | S todo' =>
      saved <~ download_attempt net image_url file_path cookies retry_count attempt ;;
      if saved then ret true
      else download_attempts net image_url file_path cookies retry_count todo' (S attempt)
  end.

Definition download_image (net : network) (image_url file_path : string)
    (cookies : dict string) (retry_count : nat) : M bool :=
  download_attempts net image_url file_path cookies retry_count retry_count 0.

(** ** [get_auth_cookies] (lines 183-210) *)

Definition get_auth_cookies (cfg : config) (net : network) : M (dict string) :=
  let login_url := "https://" +:+ ZABBIX_HOST cfg in
  let login_data := dict_of
    [ ("form", "1"); ("form_refresh", "1");
      ("name", WEB_UI_USERNAME cfg); ("password", WEB_UI_PASSWORD cfg);
      ("enter", "Enter") ] in
  exchange <~ send (SessionPost login_url login_data)
                   (session_post net login_url login_data) ;;
  let response := fst exchange in
  raise_for_status response ;;
  let cookie_dict : dict string := snd exchange in
  let cookie_header :=
    Text.join "; " (map (fun kv => fst kv +:+ "=" +:+ snd kv) cookie_dict) in
  ret (dict_of [("Cookie", cookie_header)]).

(** ** [create_download_queue] (lines 229-287) *)

(** The [except] clauses of lines 252 and 262. *)
Definition caught_at_252 (e : exn) : bool :=
  match e with
  | HTTPError _ | JSONDecodeError | KeyError _ | IndexError => true
  | _ => false
  end.

Definition caught_at_262 (e : exn) : bool :=
  match e with
  | HTTPError _ | JSONDecodeError => true
  | _ => false
  end.

(** Lines 271-273: the destination of one item. *)
Definition item_filename (cfg : config) (host_name item_name item_id : string) : string :=
  let time_str := strftime "%Y-%m-%d_%H%M%S" (start_time cfg) +:+ "_"
                  +:+ strftime "%Y-%m-%d_%H%M%S" (end_time cfg) in
  host_name +:+ "_" +:+ item_name +:+ "_" +:+ item_id +:+ "_" +:+ time_str +:+ ".png".

(** Lines 267-285: the body of [for item in items]. *)
Definition queue_item (cfg : config) (host_name host_dir : string) (item : record)
    (download_queue : dict string) : M (dict string) :=
  item_id <~ subscript item "itemid" ;;
  name <~ subscript item "name" ;;
  let item_name := sanitize_filename name in
  let filename := item_filename cfg host_name item_name item_id in
  let file_path := os_path_join host_dir filename in
  present <~ os_path_exists file_path ;;
  if present then
    print (MsgSkipping file_path) ;;
    ret download_queue
  else
    let graph_url := generate_graph_url (ZABBIX_HOST cfg) (start_time cfg) (end_time cfg)
                       item_id (RESULTING_IMAGE_WIDTH cfg) (RESULTING_IMAGE_HEIGHT cfg) in
    ret (dict_set graph_url file_path download_queue).

(** Line 266: [for item in items]. *)
Fixpoint queue_items (cfg : config) (host_name host_dir : string) (items : list record)
    (download_queue : dict string) : M (dict string) :=
  match items with
  | [] => ret download_queue
  | item :: rest =>
      download_queue' <~ queue_item cfg host_name host_dir item download_queue ;;
      queue_items cfg host_name host_dir rest download_queue'
  end.

(** Lines 244-254: [Some host_id], or [None] for a [continue]. *)
Definition resolve_host (cfg : config) (net : network) (host_name : string)
  : M (option string) :=
  try_except
    (host_info <~ get_host_id cfg net host_name ;;
     match host_info with
     | [] => print (MsgNoHostFound host_name) ;; ret None
     | first :: _ =>
         host_id <~ subscript first "hostid" ;;
         ret (Some host_id)
     end)
    caught_at_252
    (fun e => print (MsgHostIdFailed host_name e) ;; ret None).

(** Lines 260-264: [Some items], or [None] for a [continue]. *)
Definition list_items (cfg : config) (net : network) (host_name host_id : string)
  : M (option (list record)) :=
  try_except
    (items <~ get_item_list cfg net host_id ;; ret (Some items))
    caught_at_262
    (fun e => print (MsgItemsFailed host_name e) ;; ret None).

(** Lines 242-285: the body of [for host_name in HOST_LIST]. *)
Definition queue_host (cfg : config) (net : network) (host_name : string)
    (download_queue : dict string) : M (dict string) :=
  print (MsgProcessingHost host_name) ;;
  resolved <~ resolve_host cfg net host_name ;;
  match resolved with
  | None => ret download_queue
  | Some host_id =>
      here <~ getcwd ;;
      let host_dir := os_path_join here host_name in
      os_makedirs host_dir ;;
      listed <~ list_items cfg net host_name host_id ;;
      match listed with
      | None => ret download_queue
      | Some items => queue_items cfg host_name host_dir items download_queue
      end
  end.

(** Line 241: [for host_name in HOST_LIST]. *)
Fixpoint queue_hosts (cfg : config) (net : network) (hosts : list string)
    (download_queue : dict string) : M (dict string) :=
  match hosts with
  | [] => ret download_queue
  | host_name :: rest =>
      download_queue' <~ queue_host cfg net host_name download_queue ;;
      queue_hosts cfg net rest download_queue'
  end.

Definition create_download_queue (cfg : config) (net : network) (cookies : dict string)
  : M (dict string) :=
  queue_hosts cfg net (HOST_LIST cfg) [].

(** ** [download_images_multithreaded] (lines 290-323) *)

(** One thread per entry, all joined before the function returns.  Each
    thread is a [download_image] with attempts of its own, so what happens
    to one entry does not depend on the schedule; the threads are run here
    in the order they are started.  The progress bar is not modelled. *)
Fixpoint run_threads (cfg : config) (net : network) (entries : dict string)
    (cookies : dict string) : M unit :=
  match entries with
  | [] => ret tt
  | (url, file_path) :: rest =>
      download_image net url file_path cookies (DOWNLOAD_RETRY_COUNT cfg) ;;
      run_threads cfg net rest cookies
  end.

Definition download_images_multithreaded (cfg : config) (net : network)
    (download_queue : dict string) (cookies : dict string) : M unit :=
  match download_queue with
  | [] => print MsgNoImages
  | _ :: _ =>
      print (MsgStarting (List.length download_queue)) ;;
      run_threads cfg net download_queue cookies ;;
      print MsgAllDone
  end.

(** ** [main] (lines 326-343) *)

Definition is_http_error (e : exn) : bool :=
  match e with HTTPError _ => true | _ => false end.

(** The [try] of lines 329-337 yields the cookies, or [None] after one of
    the two handlers has printed and [main] returns. *)
Definition authenticate (cfg : config) (net : network) : M (option (dict string)) :=
  try_except
    (cookies <~ get_auth_cookies cfg net ;;
     print MsgAuthenticated ;;
     ret (Some cookies))
    (fun _ => true)
    (fun e =>
       if is_http_error e
       then print (MsgAuthHttpError e) ;; ret None
       else print (MsgAuthFailed e) ;; ret None).

Definition main (cfg : config) (net : network) : M unit :=
  session <~ authenticate cfg net ;;
  match session with
  | None => ret tt
  | Some cookies =>
      download_queue <~ create_download_queue cfg net cookies ;;
      download_images_multithreaded cfg net download_queue cookies
  end.

(** ** Definitions used to state the properties *)

(** The nine characters of the denylist. *)
Definition denylisted : list ascii :=
  ["<"; ">"; ":"; ascii_of_nat 34; "/"; "\"; "|"; "?"; "*"]%char.

(** A time stamp written [YYYY-MM-DD HH:MM:SS]. *)
Definition timestamp (t : datetime) : string :=
  zero_padded 4 (year t) +:+ "-" +:+ zero_padded 2 (month t) +:+ "-"
  +:+ zero_padded 2 (day t) +:+ " " +:+ zero_padded 2 (hour t) +:+ ":"
  +:+ zero_padded 2 (minute t) +:+ ":" +:+ zero_padded 2 (second t).

(** A time stamp written [YYYY-MM-DD_HHMMSS]. *)
Definition file_timestamp (t : datetime) : string :=
  zero_padded 4 (year t) +:+ "-" +:+ zero_padded 2 (month t) +:+ "-"
  +:+ zero_padded 2 (day t) +:+ "_" +:+ zero_padded 2 (hour t)
  +:+ zero_padded 2 (minute t) +:+ zero_padded 2 (second t).

(** The value of a hexadecimal digit. *)
Definition unhex (d : ascii) : nat :=
  if is_digit d then nat_of_ascii d - 48 else nat_of_ascii d - 55.

(** The inverse of [quote]: [urllib.parse.unquote] on bytes. *)
Fixpoint unquote (s : string) : string :=
  match s with
  | EmptyString => EmptyString
  | String c rest =>
      if Ascii.eqb c "%" then
        match rest with
        | String h (String l rest') =>
            String (ascii_of_nat (16 * unhex h + unhex l)) (unquote rest')
        | _ => String c (unquote rest)
        end
      else String c (unquote rest)
  end.

(** The characters a quoted value is made of. *)
Definition quoted_char (c : ascii) : bool := quote_safe c || Ascii.eqb c "%".

Fixpoint all_chars (p : ascii -> bool) (s : string) : bool :=
  match s with
  | EmptyString => true
  | String c s' => p c && all_chars p s'
  end.

(** The eight query parameters of a chart URL, in order, each value
    percent-encoded. *)
Definition chart_parameters (start_time end_time : datetime) (item_id : string)
    (width height : Z) : list string :=
  [ "from=" +:+ quote (timestamp start_time);
    "to=" +:+ quote (timestamp end_time);
    "itemids[0]=" +:+ quote item_id;
    "type=" +:+ quote "0";
    "profileIdx=" +:+ quote "web.item.graph.filter";
    "profileIdx2=" +:+ quote item_id;
    "width=" +:+ quote (NilZero.string_of_int (Z.to_int width));
    "height=" +:+ quote (NilZero.string_of_int (Z.to_int height)) ].

(** The world after more events, the file system as it was. *)
Definition extend (w : world) (evs : list event) : world :=
  mk_world (files w) (dirs w) (cwd w) (trace w ++ evs).

(** The requests among some events, in order. *)
Fixpoint requests_of (evs : list event) : list request :=
  match evs with
  | [] => []
  | EvRequest r :: rest => r :: requests_of rest
  | _ :: rest => requests_of rest
  end.

(** The file writes among some events, in order. *)
Fixpoint writes_of (evs : list event) : list (string * string) :=
  match evs with
  | [] => []
  | EvWrite path data :: rest => (path, data) :: writes_of rest
  | _ :: rest => writes_of rest
  end.

(** The directories made among some events, in order. *)
Fixpoint makedirs_of (evs : list event) : list string :=
  match evs with
  | [] => []
  | EvMakedirs path :: rest => path :: makedirs_of rest
  | _ :: rest => makedirs_of rest
  end.

(** An attempt that came back with status 200. *)
Definition is_200 (answer : result response) : bool :=
  match answer with
  | Ok r => (status_code r =? 200)%Z
  | Raise _ => false
  end.

(** The body of a response, if there is one. *)
Definition body_of (answer : result response) : string :=
  match answer with
  | Ok r => content r
  | Raise _ => ""
  end.

(** The login form as it is posted (lines 193-203). *)
Definition login_url (cfg : config) : string := "https://" +:+ ZABBIX_HOST cfg.

Definition login_data (cfg : config) : dict string :=
  [ ("form", "1"); ("form_refresh", "1");
    ("name", WEB_UI_USERNAME cfg); ("password", WEB_UI_PASSWORD cfg);
    ("enter", "Enter") ].

(** The login fails with [e]: the transport raises [e], or the answer has
    a status from 400 to 599 and [e] is the [HTTPError] of
    [raise_for_status]. *)
Definition login_fails (cfg : config) (net : network) (e : exn) : Prop :=
  session_post net (login_url cfg) (login_data cfg) = Raise e
  \/ exists r jar,
       session_post net (login_url cfg) (login_data cfg) = Ok (r, jar)
       /\ (400 <= status_code r < 600)%Z
       /\ e = HTTPError (status_code r).

(** *** Computations that only talk *)

(** The calls to the API neither read nor change the file system: their
    answer and the events they add are those of a run in an empty world. *)
Definition blank : world := mk_world ∅ ∅ "" [].

Definition answer_of {A} (m : M A) : result A := fst (m blank).
Definition events_of {A} (m : M A) : list event := trace (snd (m blank)).

Definition oblivious {A} (m : M A) : Prop :=
  forall w, m w = (answer_of m, extend w (events_of m)).

(** What resolving a host and listing its items come to. *)
Definition resolution (cfg : config) (net : network) (host_name : string)
  : result (option string) :=
  answer_of (resolve_host cfg net host_name).

Definition listing (cfg : config) (net : network) (host_name host_id : string)
  : result (option (list record)) :=
  answer_of (list_items cfg net host_name host_id).

(** The items of a host that resolves and whose items are listed. *)
Definition host_items (cfg : config) (net : network) (host_name : string)
  : option (list record) :=
  match resolution cfg net host_name with
  | Ok (Some host_id) =>
      match listing cfg net host_name host_id with
      | Ok (Some items) => Some items
      | _ => None
      end
  | _ => None
  end.

(** *** The entry of an item *)

Definition export_url (cfg : config) (item_id : string) : string :=
  generate_graph_url (ZABBIX_HOST cfg) (start_time cfg) (end_time cfg) item_id
                     (RESULTING_IMAGE_WIDTH cfg) (RESULTING_IMAGE_HEIGHT cfg).

(** [<host directory>/<host>_<name>_<id>_<start>_<end>.png] *)
Definition destination (cfg : config) (host_name host_dir item_id name : string)
  : string :=
  os_path_join host_dir
    (host_name +:+ "_" +:+ sanitize_filename name +:+ "_" +:+ item_id +:+ "_"
     +:+ file_timestamp (start_time cfg) +:+ "_" +:+ file_timestamp (end_time cfg)
     +:+ ".png").

(** The pair of URL and path of an item that has an id and a name. *)
Definition item_entry (cfg : config) (host_name host_dir : string) (item : record)
  : option (string * string) :=
  match dict_get "itemid" item, dict_get "name" item with
  | Some item_id, Some name =>
      Some (export_url cfg item_id, destination cfg host_name host_dir item_id name)
  | _, _ => None
  end.

(** [queue[url] = path] for each entry in turn. *)
Definition insert_all (entries : list (string * string)) (queue : dict string)
  : dict string :=
  fold_left (fun q e => dict_set (fst e) (snd e) q) entries queue.

(** The entries whose file is not there yet, and the lines printed for the
    others. *)
Definition missing (w : world) (entries : list (string * string))
  : list (string * string) :=
  List.filter (fun e => negb (path_exists w (snd e))) entries.

Definition skipped (w : world) (entries : list (string * string)) : list event :=
  map (fun e => EvPrint (MsgSkipping (snd e)))
      (List.filter (fun e => path_exists w (snd e)) entries).

(** Every item of the list has an id and a name; [entries] are their
    entries, in order. *)
Definition entries_of (cfg : config) (host_name host_dir : string)
    (items : list record) (entries : list (string * string)) : Prop :=
  Forall2 (fun item e => item_entry cfg host_name host_dir item = Some e)
          items entries.

(** The later world has the working directory of the earlier one and all
    its files and directories. *)
Definition keeps (w w' : world) : Prop :=
  cwd w' = cwd w /\ forall p, path_exists w p = true -> path_exists w' p = true.

(** The world once the directory of a host is made, after [evs]. *)
Definition with_directory (w : world) (evs : list event) (host_dir : string) : world :=
  mk_world (files w) ({[host_dir]} ∪ dirs w) (cwd w)
           (trace w ++ evs ++ [EvMakedirs host_dir]).

(** The events of the body of the host loop up to the resolution, and
    those of the listing. *)
Definition resolving_events (cfg : config) (net : network) (host_name : string)
  : list event :=
  EvPrint (MsgProcessingHost host_name) :: events_of (resolve_host cfg net host_name).

Definition listing_events (cfg : config) (net : network) (host_name host_id : string)
  : list event :=
  events_of (list_items cfg net host_name host_id).

(** A request to the API that carries the bearer token and nothing else. *)
Definition bearer_request (cfg : config) (r : request) : Prop :=
  exists payload,
    r = ApiPost (ZABBIX_API_URL cfg) payload
                [("Authorization", "Bearer " +:+ ZABBIX_API_TOKEN cfg)].

(** *** The entries a run is about *)

(** [e] is the entry of an item of one of the [hosts], a host that resolves
    and whose items are listed; [here] is the working directory. *)
Definition planned_in (cfg : config) (net : network) (here : string)
    (hosts : list string) (e : string * string) : Prop :=
  exists host_name items item,
    In host_name hosts
    /\ host_items cfg net host_name = Some items
    /\ In item items
    /\ item_entry cfg host_name (os_path_join here host_name) item = Some e.

(** Two items of the configured hosts with the same URL, that is with the
    same id, have the same destination. *)
Definition ids_determine_paths (cfg : config) (net : network) (here : string) : Prop :=
  forall e1 e2,
    planned_in cfg net here (HOST_LIST cfg) e1 ->
    planned_in cfg net here (HOST_LIST cfg) e2 ->
    fst e1 = fst e2 -> snd e1 = snd e2.

(** Every entry of the queue is answered with a 200 below the ceiling. *)
Definition downloads_succeed (cfg : config) (net : network) (cookies : dict string)
    (queue : dict string) : Prop :=
  forall url file_path,
    In (url, file_path) queue ->
    exists k, k < DOWNLOAD_RETRY_COUNT cfg
              /\ is_200 (chart_post net url cookies k) = true.

(** Each of [entries] is there, or is in the queue under its URL. *)
Definition covered (entries : string * string -> Prop) (q : dict string) (w : world)
  : Prop :=
  forall e, entries e ->
    path_exists w (snd e) = true \/ dict_get (fst e) q = Some (snd e).

(** *** More definitions for the properties of the whole program *)

(** The characters of a query string: those of a quoted value and the
    punctuation of the parameter names. *)
Definition query_char (c : ascii) : bool :=
  quoted_char c || existsb (Ascii.eqb c) ["="; "&"; "["; "]"]%char.

(** The status of an answer makes [raise_for_status] raise. *)
Definition error_status (r : response) : bool :=
  ((400 <=? status_code r) && (status_code r <? 600))%Z.

(** What [get_host_id] and [get_item_list] make of the answer to their
    request. *)
Definition api_outcome (answer : result response) : result (list record) :=
  match answer with
  | Raise e => Raise e
  | Ok r =>
      if error_status r then Raise (HTTPError (status_code r))
      else match parsed r with
           | None => Raise JSONDecodeError
           | Some data =>
               match dict_get "result" data with
               | None => Raise (KeyError "result")
               | Some records => Ok records
               end
           end
  end.

(** The answer to [host.get] for a host is one that line 252 handles or
    that names no host: a caught exception of the transport, an error
    status, a body that is not JSON, no [result], an empty [result], or a
    first record without [hostid]. *)
Definition unresolved (cfg : config) (net : network) (host_name : string) : Prop :=
  match api_outcome (api_post net (ZABBIX_API_URL cfg) (host_get_payload host_name)
                              (bearer_headers cfg)) with
  | Raise e => caught_at_252 e = true
  | Ok [] => True
  | Ok (first :: _) => dict_get "hostid" first = None
  end.

(** Two worlds with the same file system and working directory. *)
Definition same_fs (w w' : world) : Prop :=
  files w = files w' /\ dirs w = dirs w' /\ cwd w = cwd w'.

(** The path [p] holds the same in both worlds. *)
Definition same_at (w w' : world) (p : string) : Prop :=
  files w' !! p = files w !! p.

(** The characters of a printed time stamp of a file name. *)
Definition stamp_char (c : ascii) : bool :=
  is_digit c || Ascii.eqb c "-" || Ascii.eqb c "_".

(** The two requests to the API. *)
Definition host_get_request (cfg : config) (host_name : string) : request :=
  ApiPost (ZABBIX_API_URL cfg) (host_get_payload host_name)
          [("Authorization", "Bearer " +:+ ZABBIX_API_TOKEN cfg)].

Definition item_get_request (cfg : config) (host_id : string) : request :=
  ApiPost (ZABBIX_API_URL cfg) (item_get_payload host_id)
          [("Authorization", "Bearer " +:+ ZABBIX_API_TOKEN cfg)].

(** The answers of the server to them. *)
Definition host_get_answer (cfg : config) (net : network) (host_name : string)
  : result response :=
  api_post net (ZABBIX_API_URL cfg) (host_get_payload host_name) (bearer_headers cfg).

Definition item_get_answer (cfg : config) (net : network) (host_id : string)
  : result response :=
  api_post net (ZABBIX_API_URL cfg) (item_get_payload host_id) (bearer_headers cfg).

(** The header that [get_auth_cookies] builds from the cookie jar. *)
Definition cookie_header (jar : dict string) : dict string :=
  [("Cookie", Text.join "; " (map (fun kv => fst kv +:+ "=" +:+ snd kv) jar))].

(** A request for the chart of an entry of the queue, with the cookies. *)
Definition chart_request_of (queue : dict string) (cookies : dict string)
    (r : request) : Prop :=
  exists url file_path, In (url, file_path) queue /\ r = ChartPost url cookies 30.

(** The requests that the body of the host loop sends for a host: the
    resolution, and the listing when the host resolves. *)
Definition host_requests (cfg : config) (net : network) (host_name : string)
  : list request :=
  host_get_request cfg host_name
  :: match resolution cfg net host_name with
     | Ok (Some host_id) => [item_get_request cfg host_id]
     | _ => []
     end.

(** The directory it makes: that of a host that resolves. *)
Definition host_directories (cfg : config) (net : network) (here host_name : string)
  : list string :=
  match resolution cfg net host_name with
  | Ok (Some _) => [os_path_join here host_name]
  | _ => []
  end.

(** What some events do besides printing and sending: nothing to the
    files, and the directories [made]. *)
Definition quiet (evs : list event) (made : list string) : Prop :=
  writes_of evs = [] /\ makedirs_of evs = made.

(** A queue whose URLs are pairwise distinct and whose entries are entries
    of items of the configured hosts with no file at [w0]. *)
Definition sound_queue (cfg : config) (net : network) (w0 : world) (q : dict string)
  : Prop :=
  List.NoDup (keys q)
  /\ forall url file_path,
       In (url, file_path) q ->
       planned_in cfg net (cwd w0) (HOST_LIST cfg) (url, file_path)
       /\ path_exists w0 file_path = false.

(** The requests of a run that logged in with the cookie jar [jar]: the
    login, requests to the API with the bearer token, and requests for the
    chart of an item of a configured host with the header of the session. *)
Definition run_request (cfg : config) (net : network) (jar : dict string)
    (here : string) (r : request) : Prop :=
  r = SessionPost (login_url cfg) (login_data cfg)
  \/ bearer_request cfg r
  \/ exists url file_path,
       planned_in cfg net here (HOST_LIST cfg) (url, file_path)
       /\ r = ChartPost url (cookie_header jar) 30.

(** The key whose absence makes line 267 or line 268 raise. *)
Definition missing_key (item : record) : string :=
  match dict_get "itemid" item with
  | Some _ => "name"
  | None => "itemid"
  end.

(** ** Scenarios *)

(** The concrete worlds, configurations and servers of the examples: two
    hosts [srv-a] and [srv-b], the day from 2024-01-01 to 2024-01-02, one
    item [CPU] with id [1] on [srv-a]. *)
Module Scenario.

Definition w0 : world := mk_world ∅ ∅ "/work" [].

Definition api_url : string := "https://zbx.example/api_jsonrpc.php".

Definition cfg : config :=
  mk_config api_url "token" "zbx.example" "user" "secret"
            ["srv-a"; "srv-b"]
            (mk_datetime 2024 1 1 0 0 0) (mk_datetime 2024 1 2 0 0 0)
            1920 200 3.

(** A 200 answer of the API with a [result] field. *)
Definition api_result (records : list record) : result response :=
  Ok (mk_response 200 "" (Some [("jsonrpc", []); ("result", records)])).

(** A 200 answer of the API with an [error] field and no [result]. *)
Definition api_error : result response :=
  Ok (mk_response 200 "" (Some [("jsonrpc", [])])).

Definition http_status (status : Z) : result response :=
  Ok (mk_response status "" None).

Definition cpu_item : record := [("itemid", "1"); ("hostid", "10"); ("name", "CPU")].
Definition mem_item : record := [("itemid", "2"); ("hostid", "20"); ("name", "Memory")].

(** [srv-a] is host 10 with the item [CPU]; resolving [srv-b] fails with a
    status 500. *)
Definition api_one_host (payload : rpc) : result response :=
  match params payload with
  | HostGetParams _ host_name =>
      if String.eqb host_name "srv-a" then api_result [[("hostid", "10")]]
      else http_status 500
  | ItemGetParams _ host_id =>
      if String.eqb host_id "10" then api_result [cpu_item] else api_result []
  end.

(** Both hosts resolve; listing the items of [srv-a] is answered with an
    error object, [srv-b] has the item [Memory]. *)
Definition api_listing_error (payload : rpc) : result response :=
  match params payload with
  | HostGetParams _ host_name =>
      if String.eqb host_name "srv-a" then api_result [[("hostid", "10")]]
      else api_result [[("hostid", "20")]]
  | ItemGetParams _ host_id =>
      if String.eqb host_id "10" then api_error else api_result [mem_item]
  end.

(** Resolving [srv-a] is answered with an error object; [srv-b] is host 20
    with the item [Memory]. *)
Definition api_resolution_error (payload : rpc) : result response :=
  match params payload with
  | HostGetParams _ host_name =>
      if String.eqb host_name "srv-a" then api_error
      else api_result [[("hostid", "20")]]
  | ItemGetParams _ host_id => api_result [mem_item]
  end.

Definition login_ok : result (response * dict string) :=
  Ok (mk_response 200 "" None, [("zbx_session", "abc")]).

Definition png : result response := Ok (mk_response 200 "PNG" None).

Definition server (login : result (response * dict string))
    (api : rpc -> result response) (chart : nat -> result response) : network :=
  mk_network (fun _ _ => login) (fun _ payload _ => api payload) (fun _ _ n => chart n).

(** The chart endpoint answers 503, then times out, then sends the image. *)
Definition chart_flaky (n : nat) : result response :=
  match n with
  | 0 => http_status 503
  | 1 => Raise ReadTimeout
  | _ => png
  end.

Definition net_good : network := server login_ok api_one_host (fun _ => png).
Definition net_flaky : network := server login_ok api_one_host chart_flaky.
Definition net_no_chart : network := server login_ok api_one_host (fun _ => http_status 500).
Definition net_listing_error : network := server login_ok api_listing_error (fun _ => png).
Definition net_resolution_error : network :=
  server login_ok api_resolution_error (fun _ => png).
Definition net_login_refused : network :=
  server (Ok (mk_response 401 "" None, [])) api_one_host (fun _ => png).
Definition net_unreachable : network :=
  server (Raise ConnectionError) api_one_host (fun _ => png).

Definition session_cookies : dict string := [("Cookie", "zbx_session=abc")].

Definition cpu_url : string :=
  "https://zbx.example/chart.php?from=2024-01-01%2000%3A00%3A00&to=2024-01-02%2000%3A00%3A00&itemids[0]=1&type=0&profileIdx=web.item.graph.filter&profileIdx2=1&width=1920&height=200".

Definition cpu_path : string :=
  "/work/srv-a/srv-a_CPU_1_2024-01-01_000000_2024-01-02_000000.png".

Definition mem_url : string :=
  "https://zbx.example/chart.php?from=2024-01-01%2000%3A00%3A00&to=2024-01-02%2000%3A00%3A00&itemids[0]=2&type=0&profileIdx=web.item.graph.filter&profileIdx2=2&width=1920&height=200".

Definition mem_path : string :=
  "/work/srv-b/srv-b_Memory_2_2024-01-01_000000_2024-01-02_000000.png".

Definition disk_item : record := [("itemid", "3"); ("hostid", "10"); ("name", "Disk: /")].

Definition disk_url : string :=
  "https://zbx.example/chart.php?from=2024-01-01%2000%3A00%3A00&to=2024-01-02%2000%3A00%3A00&itemids[0]=3&type=0&profileIdx=web.item.graph.filter&profileIdx2=3&width=1920&height=200".

Definition disk_path : string :=
  "/work/srv-a/srv-a_Disk _3_2024-01-01_000000_2024-01-02_000000.png".

(** The server lists two items of [srv-a] under the same id. *)
Definition cpu_load_item : record :=
  [("itemid", "1"); ("hostid", "10"); ("name", "CPU load")].

Definition api_same_id (payload : rpc) : result response :=
  match params payload with
  | HostGetParams _ host_name =>
      if String.eqb host_name "srv-a" then api_result [[("hostid", "10")]]
      else http_status 500
  | ItemGetParams _ host_id =>
      if String.eqb host_id "10" then api_result [cpu_item; cpu_load_item]
      else api_result []
  end.

Definition net_same_id : network := server login_ok api_same_id (fun _ => png).

Definition cpu_load_path : string :=
  "/work/srv-a/srv-a_CPU load_1_2024-01-01_000000_2024-01-02_000000.png".

(** [srv-a] is host 10 with the item [CPU]; the connection drops while
    [srv-b] is resolved. *)
Definition api_connection_lost (payload : rpc) : result response :=
  match params payload with
  | HostGetParams _ host_name =>
      if String.eqb host_name "srv-a" then api_result [[("hostid", "10")]]
      else Raise ConnectionError
  | ItemGetParams _ host_id =>
      if String.eqb host_id "10" then api_result [cpu_item] else api_result []
  end.

Definition net_connection_lost : network :=
  server login_ok api_connection_lost (fun _ => png).

(** Listing the items of any host is answered with a status 503. *)
Definition api_listing_refused (payload : rpc) : result response :=
  match params payload with
  | HostGetParams _ _ => api_result [[("hostid", "10")]]
  | ItemGetParams _ _ => http_status 503
  end.

Definition net_listing_refused : network :=
  server login_ok api_listing_refused (fun _ => png).

End Scenario.

(** * Properties *)

(** ** Strings *)

Section StringFacts.

Lemma app_empty_r (s : string) : s +:+ "" = s.
Proof. induction s as [|c s IH]; simpl; [reflexivity | now rewrite IH]. Qed.

Lemma app_assoc_s (a b c : string) : (a +:+ b) +:+ c = a +:+ (b +:+ c).
Proof. induction a as [|x a IH]; simpl; [reflexivity | now rewrite IH]. Qed.

Lemma contains_app (c : ascii) (a b : string) :
  Text.contains c (a +:+ b) = Text.contains c a || Text.contains c b.
Proof.
  induction a as [|x a IH]; simpl; [reflexivity |].
  destruct (Ascii.eqb c x); [reflexivity | exact IH].
Qed.

Lemma filter_chars_ext (f g : ascii -> bool) (s : string) :
  (forall c, f c = g c) -> Text.filter_chars f s = Text.filter_chars g s.
Proof.
  intros Hfg. induction s as [|c s IH]; simpl; [reflexivity |].
  rewrite Hfg, IH. reflexivity.
Qed.

Lemma filter_chars_twice (f g : ascii -> bool) (s : string) :
  Text.filter_chars f (Text.filter_chars g s)
  = Text.filter_chars (fun c => g c && f c) s.
Proof.
  induction s as [|c s IH]; simpl; [reflexivity |].
  destruct (g c) eqn:Hg; simpl; [| exact IH].
  destruct (f c); simpl; now rewrite IH.
Qed.

Lemma filter_chars_contains (f : ascii -> bool) (c : ascii) (s : string) :
  f c = false -> Text.contains c (Text.filter_chars f s) = false.
Proof.
  intros Hc. induction s as [|d s IH]; simpl; [reflexivity |].
  destruct (f d) eqn:Hd; [| exact IH].
  simpl. destruct (Ascii.eqb_spec c d) as [->|_]; [congruence | exact IH].
Qed.

Lemma filter_chars_all (f : ascii -> bool) (s : string) :
  (forall c, Text.contains c s = true -> f c = true) ->
  Text.filter_chars f s = s.
Proof.
  induction s as [|d s IH]; simpl; intros Hall; [reflexivity |].
  rewrite (Hall d) by now rewrite Ascii.eqb_refl.
  f_equal. apply IH. intros c Hc. apply Hall.
  destruct (Ascii.eqb c d); [reflexivity | exact Hc].
Qed.

(** Replacing a one-character string by nothing deletes that character. *)
Lemma replace_char_deletes (a : ascii) (s : string) :
  Text.replace (String a "") "" s
  = Text.filter_chars (fun c => negb (Ascii.eqb a c)) s.
Proof.
  unfold Text.replace.
  induction s as [|c s IH]; simpl; [reflexivity |].
  destruct (Ascii.eqb a c); simpl; [exact IH | now rewrite IH].
Qed.

End StringFacts.

(** ** The sanitizer *)

Lemma forbidden_char_denylisted (c : ascii) :
  forbidden_char c = existsb (Ascii.eqb c) denylisted.
Proof. destruct c as [[] [] [] [] [] [] [] []]; reflexivity. Qed.

Lemma sanitize_filename_filter (s : string) :
  sanitize_filename s = Text.filter_chars (fun c => negb (forbidden_char c)) s.
Proof.
  unfold sanitize_filename, FORBIDDEN_SYMBOLS. cbn [fold_left].
  rewrite !replace_char_deletes, !filter_chars_twice.
  apply filter_chars_ext.
  intros c. destruct c as [[] [] [] [] [] [] [] []]; reflexivity.
Qed.

(** C6: the output of the sanitizer is the input with every occurrence of
    the nine denylisted characters deleted, the other characters kept in
    place, and so none of the nine occurs in it. *)
Theorem sanitize_filename_deletes_denylisted (s : string) :
  sanitize_filename s
  = Text.filter_chars (fun c => negb (existsb (Ascii.eqb c) denylisted)) s
  /\ forallb (fun c => negb (Text.contains c (sanitize_filename s))) denylisted = true.
Proof.
  split.
  - rewrite sanitize_filename_filter. apply filter_chars_ext.
    intros c. now rewrite forbidden_char_denylisted.
  - apply forallb_forall. intros c Hc.
    rewrite sanitize_filename_filter, filter_chars_contains; [reflexivity |].
    rewrite forbidden_char_denylisted.
    apply negb_false_iff, existsb_exists. exists c.
    split; [exact Hc | apply Ascii.eqb_refl].
Qed.

(** C7: sanitizing twice is sanitizing once, and a string in which none of
    the nine characters occurs is returned as it is. *)
Theorem sanitize_filename_idempotent_identity (s : string) :
  sanitize_filename (sanitize_filename s) = sanitize_filename s
  /\ (forallb (fun c => negb (Text.contains c s)) denylisted = true ->
      sanitize_filename s = s).
Proof.
  split.
  - rewrite !sanitize_filename_filter, filter_chars_twice.
    apply filter_chars_ext. intros c. now destruct (forbidden_char c).
  - intros Hclean. rewrite sanitize_filename_filter.
    apply filter_chars_all. intros c Hc.
    rewrite forbidden_char_denylisted.
    destruct (existsb (Ascii.eqb c) denylisted) eqn:Hex; [| reflexivity].
    apply existsb_exists in Hex as (d & Hd & Hcd).
    apply Ascii.eqb_eq in Hcd as <-.
    rewrite forallb_forall in Hclean. specialize (Hclean c Hd).
    rewrite Hc in Hclean. discriminate.
Qed.

Lemma sanitize_filename_identity_witness :
  sanitize_filename "CPU usage" = "CPU usage".
Proof.
  apply (proj2 (sanitize_filename_idempotent_identity "CPU usage")).
  reflexivity.
Defined.

(** ** Percent-encoding *)

Lemma unquote_quote_char (c : ascii) (s : string) :
  unquote (quote_char c +:+ s) = String c (unquote s).
Proof. destruct c as [[] [] [] [] [] [] [] []]; reflexivity. Qed.

(** Decoding an encoded string gives the string back. *)
Lemma unquote_quote (s : string) : unquote (quote s) = s.
Proof.
  induction s as [|c s IH]; [reflexivity |].
  cbn [quote]. rewrite unquote_quote_char, IH. reflexivity.
Qed.

Lemma quote_injective (s t : string) : quote s = quote t -> s = t.
Proof.
  intros H. rewrite <- (unquote_quote s), <- (unquote_quote t). now rewrite H.
Qed.

Lemma quote_char_chars (c : ascii) : all_chars quoted_char (quote_char c) = true.
Proof. destruct c as [[] [] [] [] [] [] [] []]; reflexivity. Qed.

Lemma all_chars_app (p : ascii -> bool) (a b : string) :
  all_chars p (a +:+ b) = all_chars p a && all_chars p b.
Proof.
  induction a as [|x a IH]; simpl; [reflexivity |].
  rewrite IH. apply andb_assoc.
Qed.

(** An encoded value holds unreserved characters, [/] and [%] only. *)
Lemma quote_chars (s : string) : all_chars quoted_char (quote s) = true.
Proof.
  induction s as [|c s IH]; [reflexivity |].
  cbn [quote]. now rewrite all_chars_app, quote_char_chars, IH.
Qed.

Lemma all_chars_contains (p : ascii -> bool) (c : ascii) (s : string) :
  all_chars p s = true -> p c = false -> Text.contains c s = false.
Proof.
  induction s as [|d s IH]; simpl; intros Hall Hc; [reflexivity |].
  apply andb_true_iff in Hall as [Hd Hs].
  destruct (Ascii.eqb_spec c d) as [->|_]; [congruence | now apply IH].
Qed.

Lemma quote_no_ampersand (s : string) : Text.contains "&" (quote s) = false.
Proof. apply (all_chars_contains quoted_char); [apply quote_chars | reflexivity]. Qed.

(** ** Splitting and joining *)

Lemma split_from_piece (sep : ascii) (cur p : string) :
  Text.contains sep p = false ->
  Text.split_from sep cur p = [cur +:+ p].
Proof.
  revert cur. induction p as [|c p IH]; simpl; intros cur Hp.
  - now rewrite app_empty_r.
  - rewrite Ascii.eqb_sym. destruct (Ascii.eqb sep c); [discriminate |].
    rewrite IH by exact Hp. now rewrite app_assoc_s.
Qed.

Lemma split_from_next (sep : ascii) (cur p rest : string) :
  Text.contains sep p = false ->
  Text.split_from sep cur (p +:+ String sep rest)
  = (cur +:+ p) :: Text.split_from sep "" rest.
Proof.
  revert cur. induction p as [|c p IH]; simpl; intros cur Hp.
  - now rewrite Ascii.eqb_refl, app_empty_r.
  - rewrite Ascii.eqb_sym. destruct (Ascii.eqb sep c); [discriminate |].
    rewrite IH by exact Hp. now rewrite app_assoc_s.
Qed.

Lemma split_from_join (sep : ascii) (cur p rest : string) :
  Text.contains sep p = false ->
  Text.split_from sep cur (p +:+ String sep "" +:+ rest)
  = (cur +:+ p) :: Text.split_from sep "" rest.
Proof. apply split_from_next. Qed.

(** Two strings without the separator that are followed by it are equal
    when the whole texts are. *)
Lemma app_sep_inj (sep : ascii) (x y r1 r2 : string) :
  Text.contains sep x = false -> Text.contains sep y = false ->
  x +:+ String sep r1 = y +:+ String sep r2 -> x = y.
Proof.
  revert y. induction x as [|a x IH]; intros [|b y]; simpl; intros Hx Hy Heq.
  - reflexivity.
  - injection Heq as Hb _. subst b. now rewrite Ascii.eqb_refl in Hy.
  - injection Heq as Ha _. subst a. now rewrite Ascii.eqb_refl in Hx.
  - injection Heq as -> Heq.
    destruct (Ascii.eqb sep b); [discriminate |].
    f_equal. now apply (IH y).
Qed.

Lemma app_inv_head_s (p a b : string) : p +:+ a = p +:+ b -> a = b.
Proof.
  induction p as [|c p IH]; simpl; intros H; [exact H |].
  injection H as H. now apply IH.
Qed.

(** ** The URL builder *)

Lemma strftime_timestamp (t : datetime) :
  strftime "%Y-%m-%d %H:%M:%S" t = timestamp t.
Proof.
  unfold timestamp. cbn [strftime Ascii.eqb Bool.eqb strftime_directive].
  rewrite app_empty_r. reflexivity.
Qed.

Lemma strftime_file_timestamp (t : datetime) :
  strftime "%Y-%m-%d_%H%M%S" t = file_timestamp t.
Proof.
  unfold file_timestamp. cbn [strftime Ascii.eqb Bool.eqb strftime_directive].
  rewrite app_empty_r. reflexivity.
Qed.

Lemma length_app_s (a b : string) :
  String.length (a +:+ b) = String.length a + String.length b.
Proof. induction a as [|c a IH]; simpl; [reflexivity | now rewrite IH]. Qed.

(** Two digits below 100, four digits below 10000. *)
Lemma zero_padded_2 (n : nat) : n < 100 -> String.length (zero_padded 2 n) = 2.
Proof.
  intros Hn.
  assert (Hall : forallb (fun k => Nat.eqb (String.length (zero_padded 2 k)) 2) (seq 0 100) = true)
    by (vm_compute; reflexivity).
  rewrite forallb_forall in Hall. apply Nat.eqb_eq, Hall, in_seq. lia.
Qed.

Lemma zero_padded_4 (n : nat) :
  (Z.of_nat n < 10000)%Z -> String.length (zero_padded 4 n) = 4.
Proof.
  intros Hn.
  assert (Hall : forallb (fun k => Nat.eqb (String.length (zero_padded 4 k)) 4)
                         (seq 0 (Z.to_nat 10000)) = true)
    by (vm_compute; reflexivity).
  rewrite forallb_forall in Hall. apply Nat.eqb_eq, Hall, in_seq. lia.
Qed.

(** The time stamp of a valid [datetime] has the 19 characters of
    [YYYY-MM-DD HH:MM:SS]. *)
Lemma timestamp_length (t : datetime) :
  datetime_valid t -> String.length (timestamp t) = 19.
Proof.
  intros (Hy & Hm & Hd & HH & HM & HS). unfold timestamp.
  rewrite !length_app_s, zero_padded_4 by lia.
  rewrite !zero_padded_2 by lia. reflexivity.
Qed.

(** The URL written out. *)
Lemma generate_graph_url_text (zabbix_host : string) (t0 t1 : datetime)
    (item_id : string) (width height : Z) :
  generate_graph_url zabbix_host t0 t1 item_id width height
  = "https://" +:+ zabbix_host +:+ "/chart.php?"
    +:+ "from=" +:+ quote (timestamp t0)
    +:+ "&to=" +:+ quote (timestamp t1)
    +:+ "&itemids[0]=" +:+ quote item_id
    +:+ "&type=0&profileIdx=web.item.graph.filter&profileIdx2=" +:+ quote item_id
    +:+ "&width=" +:+ quote (NilZero.string_of_int (Z.to_int width))
    +:+ "&height=" +:+ quote (NilZero.string_of_int (Z.to_int height)).
Proof.
  unfold generate_graph_url. rewrite !strftime_timestamp.
  cbn [dict_of fold_left dict_set fst snd String.eqb Ascii.eqb Bool.eqb
       map Text.join str].
  change (quote "0") with "0".
  change (quote "web.item.graph.filter") with "web.item.graph.filter".
  rewrite !app_assoc_s. cbn [String.append]. reflexivity.
Qed.

Lemma generate_graph_url_join (zabbix_host : string) (t0 t1 : datetime)
    (item_id : string) (width height : Z) :
  generate_graph_url zabbix_host t0 t1 item_id width height
  = "https://" +:+ zabbix_host +:+ "/chart.php?"
    +:+ Text.join "&" (chart_parameters t0 t1 item_id width height).
Proof.
  rewrite generate_graph_url_text. unfold chart_parameters.
  change (quote "0") with "0".
  change (quote "web.item.graph.filter") with "web.item.graph.filter".
  cbn [Text.join]. rewrite !app_assoc_s. cbn [String.append]. reflexivity.
Qed.

Lemma contains_literal_quote (c : ascii) (k v : string) :
  Text.contains c k = false -> quoted_char c = false ->
  Text.contains c (k +:+ quote v) = false.
Proof.
  intros Hk Hc. rewrite contains_app, Hk. simpl.
  now apply (all_chars_contains quoted_char); [apply quote_chars |].
Qed.


(** ** Worlds and traces *)

Lemma extend_nil (w : world) : extend w [] = w.
Proof. destruct w. unfold extend. simpl. now rewrite app_nil_r. Qed.

Lemma extend_extend (w : world) (a b : list event) :
  extend (extend w a) b = extend w (a ++ b).
Proof. unfold extend. simpl. now rewrite <- app_assoc. Qed.

Lemma requests_of_app (a b : list event) :
  requests_of (a ++ b) = requests_of a ++ requests_of b.
Proof.
  induction a as [|[] a IH]; simpl; try exact IH; [reflexivity |].
  now rewrite IH.
Qed.

Lemma writes_of_app (a b : list event) :
  writes_of (a ++ b) = writes_of a ++ writes_of b.
Proof.
  induction a as [|[] a IH]; simpl; try exact IH; [reflexivity |].
  now rewrite IH.
Qed.

(** ** The retrying download *)

Section Download.

Variable net : network.
Variables image_url file_path : string.
Variable cookies : dict string.
Variable retry_count : nat.

Let post := ChartPost image_url cookies 30.
Let answer (attempt : nat) := chart_post net image_url cookies attempt.

(** An attempt that is answered with 200 writes the file and ends the loop. *)
Lemma download_attempt_200 (attempt : nat) (w : world) :
  is_200 (answer attempt) = true ->
  download_attempt net image_url file_path cookies retry_count attempt w
  = (Ok true,
     mk_world (<[file_path := body_of (answer attempt)]> (files w)) (dirs w) (cwd w)
              (trace w ++ [EvRequest post;
                           EvWrite file_path (body_of (answer attempt));
                           EvPrint (MsgSaved file_path)])).
Proof.
  unfold answer, download_attempt, try_except, bind, send, emit, print,
    write_file, emit, ret. simpl.
  destruct (chart_post net image_url cookies attempt) as [r|e]; simpl;
    [| discriminate].
  intros ->. simpl. rewrite <- !app_assoc. reflexivity.
Qed.

(** Any other attempt prints one line and leaves the file system alone. *)
Lemma download_attempt_other (attempt : nat) (w : world) :
  is_200 (answer attempt) = false ->
  exists m,
    download_attempt net image_url file_path cookies retry_count attempt w
    = (Ok false, extend w [EvRequest post; EvPrint m]).
Proof.
  unfold answer, download_attempt, try_except, bind, send, emit, print,
    write_file, emit, ret, extend. simpl.
  destruct (chart_post net image_url cookies attempt) as [r|e]; simpl.
  - intros ->. simpl. eexists. rewrite <- !app_assoc. reflexivity.
  - intros _. eexists. rewrite <- !app_assoc. reflexivity.
Qed.

(** The loop when no attempt left is answered with 200. *)
Lemma download_attempts_all_fail (todo attempt : nat) (w : world) :
  (forall i, i < todo -> is_200 (answer (attempt + i)) = false) ->
  exists evs,
    download_attempts net image_url file_path cookies retry_count todo attempt w
    = (Ok false, extend w evs)
    /\ requests_of evs = repeat post todo
    /\ writes_of evs = []
    /\ In (EvPrint (MsgDownloadFailed image_url retry_count)) evs.
Proof.
  revert attempt w. induction todo as [|todo IH]; intros attempt w Hfail.
  - exists [EvPrint (MsgDownloadFailed image_url retry_count)].
    split; [reflexivity | split; [reflexivity | split; [reflexivity | now left]]].
  - cbn [download_attempts]. unfold bind at 1.
    destruct (download_attempt_other attempt w) as [m ->].
    { rewrite <- (Nat.add_0_r attempt). apply Hfail. lia. }
    destruct (IH (S attempt) (extend w [EvRequest post; EvPrint m]))
      as (evs & -> & Hr & Hw & Hin).
    { intros i Hi. replace (S attempt + i) with (attempt + S i) by lia.
      apply Hfail. lia. }
    exists ([EvRequest post; EvPrint m] ++ evs).
    rewrite extend_extend, requests_of_app, writes_of_app, Hr, Hw.
    split; [reflexivity | split; [reflexivity | split; [reflexivity |]]].
    apply in_or_app. now right.
Qed.

(** The loop when the first 200 comes after [K] other answers. *)
Lemma download_attempts_succeed (K todo attempt : nat) (w : world) :
  K < todo ->
  (forall i, i < K -> is_200 (answer (attempt + i)) = false) ->
  is_200 (answer (attempt + K)) = true ->
  exists evs w',
    download_attempts net image_url file_path cookies retry_count todo attempt w
    = (Ok true, w')
    /\ trace w' = trace w ++ evs
    /\ requests_of evs = repeat post (S K)
    /\ writes_of evs = [(file_path, body_of (answer (attempt + K)))]
    /\ files w' = <[file_path := body_of (answer (attempt + K))]> (files w)
    /\ dirs w' = dirs w /\ cwd w' = cwd w.
Proof.
  revert todo attempt w. induction K as [|K IH]; intros todo attempt w Hlt Hfail Hok.
  - destruct todo as [|todo]; [lia |].
    cbn [download_attempts]. unfold bind at 1.
    rewrite Nat.add_0_r in Hok |- *.
    rewrite (download_attempt_200 attempt w Hok).
    eexists _, _. split; [reflexivity |]. simpl.
    repeat split; reflexivity.
  - destruct todo as [|todo]; [lia |].
    cbn [download_attempts]. unfold bind at 1.
    destruct (download_attempt_other attempt w) as [m ->].
    { rewrite <- (Nat.add_0_r attempt). apply Hfail. lia. }
    destruct (IH todo (S attempt) (extend w [EvRequest post; EvPrint m]))
      as (evs & w' & -> & Ht & Hr & Hw & Hf & Hd & Hc).
    { lia. }
    { intros i Hi. replace (S attempt + i) with (attempt + S i) by lia.
      apply Hfail. lia. }
    { replace (S attempt + K) with (attempt + S K) by lia. exact Hok. }
    replace (S attempt + K) with (attempt + S K) in * by lia.
    exists ([EvRequest post; EvPrint m] ++ evs), w'.
    split; [reflexivity |].
    rewrite Ht, requests_of_app, writes_of_app, Hr, Hw, Hf, Hd, Hc. simpl.
    rewrite <- app_assoc. repeat split; reflexivity.
Qed.

(** Either no attempt below [n] is answered with 200, or there is a first
    one. *)
Lemma first_200 (n : nat) :
  (forall i, i < n -> is_200 (answer i) = false)
  \/ exists K, K < n /\ is_200 (answer K) = true
               /\ forall i, i < K -> is_200 (answer i) = false.
Proof.
  induction n as [|n [Hnone | (K & HK & Hok & Hbefore)]].
  - left. intros i Hi. lia.
  - destruct (is_200 (answer n)) eqn:Hn.
    + right. exists n. split; [lia | split; [exact Hn | exact Hnone]].
    + left. intros i Hi. destruct (Nat.eq_dec i n) as [->|]; [exact Hn |].
      apply Hnone. lia.
  - right. exists K. split; [lia | split; [exact Hok | exact Hbefore]].
Qed.


End Download.


(** ** Authentication *)

Lemma get_auth_cookies_fails (cfg : config) (net : network) (e : exn) (w : world) :
  login_fails cfg net e ->
  get_auth_cookies cfg net w
  = (Raise e, extend w [EvRequest (SessionPost (login_url cfg) (login_data cfg))]).
Proof.
  unfold login_fails, get_auth_cookies, send, bind, emit, raise_for_status, extend.
  change (dict_of [("form", "1"); ("form_refresh", "1");
                   ("name", WEB_UI_USERNAME cfg); ("password", WEB_UI_PASSWORD cfg);
                   ("enter", "Enter")]) with (login_data cfg).
  fold (login_url cfg). simpl.
  intros [-> | (r & jar & -> & Hstatus & ->)]; [reflexivity |].
  simpl.
  replace (400 <=? status_code r)%Z with true by (symmetry; apply Z.leb_le; lia).
  replace (status_code r <? 600)%Z with true by (symmetry; apply Z.ltb_lt; lia).
  reflexivity.
Qed.

(** C3: when the login fails, on a status from 400 to 599 or on a failure
    of the transport, [main] sends the login request, prints the cause and
    returns: no request to the API or to the chart endpoint is sent, no
    directory is made, no file is written, and the file system is as it
    was. *)
Theorem main_stops_when_login_fails (cfg : config) (net : network) (e : exn)
    (w : world) :
  login_fails cfg net e ->
  exists cause,
    main cfg net w
    = (Ok tt, extend w [EvRequest (SessionPost (login_url cfg) (login_data cfg));
                        EvPrint cause])
    /\ (cause = MsgAuthHttpError e \/ cause = MsgAuthFailed e)
    /\ files (snd (main cfg net w)) = files w
    /\ dirs (snd (main cfg net w)) = dirs w.
Proof.
  intros Hfail.
  exists (if is_http_error e then MsgAuthHttpError e else MsgAuthFailed e).
  assert (Hmain : main cfg net w
    = (Ok tt, extend w [EvRequest (SessionPost (login_url cfg) (login_data cfg));
                        EvPrint (if is_http_error e then MsgAuthHttpError e
                                 else MsgAuthFailed e)])).
  { unfold main, authenticate, bind at 1, try_except, bind at 1.
    rewrite (get_auth_cookies_fails cfg net e w Hfail).
    destruct (is_http_error e); unfold bind, print, emit, ret, extend; simpl;
      rewrite <- app_assoc; reflexivity. }
  rewrite Hmain. split; [reflexivity |].
  split; [destruct (is_http_error e); auto |].
  split; reflexivity.
Qed.

(** A refused login (status 401): the run is the login request and one
    printed line. *)
Lemma main_stops_when_login_fails_witness :
  exists cause,
    main Scenario.cfg Scenario.net_login_refused Scenario.w0
    = (Ok tt, extend Scenario.w0
                [EvRequest (SessionPost (login_url Scenario.cfg) (login_data Scenario.cfg));
                 EvPrint cause])
    /\ (cause = MsgAuthHttpError (HTTPError 401) \/ cause = MsgAuthFailed (HTTPError 401))
    /\ files (snd (main Scenario.cfg Scenario.net_login_refused Scenario.w0))
       = files Scenario.w0
    /\ dirs (snd (main Scenario.cfg Scenario.net_login_refused Scenario.w0))
       = dirs Scenario.w0.
Proof.
  apply (main_stops_when_login_fails Scenario.cfg Scenario.net_login_refused
           (HTTPError 401) Scenario.w0).
  right. exists (mk_response 401 "" None), []. split; [reflexivity |].
  split; [simpl; lia | reflexivity].
Defined.

(** ** Dictionaries *)

Lemma dict_get_set_eq {V} (k : string) (v : V) (d : dict V) :
  dict_get k (dict_set k v d) = Some v.
Proof.
  induction d as [|[k' v'] d IH]; simpl.
  - now rewrite String.eqb_refl.
  - destruct (String.eqb k k') eqn:Hk; simpl; rewrite Hk; [reflexivity | exact IH].
Qed.

Lemma dict_get_set_ne {V} (k k' : string) (v : V) (d : dict V) :
  k <> k' -> dict_get k' (dict_set k v d) = dict_get k' d.
Proof.
  intros Hne. induction d as [|[k0 v0] d IH]; simpl.
  - destruct (String.eqb_spec k' k) as [->|_]; [contradiction | reflexivity].
  - destruct (String.eqb_spec k k0) as [->|Hk0]; simpl.
    + destruct (String.eqb_spec k' k0) as [->|_]; [contradiction | reflexivity].
    + now rewrite IH.
Qed.

Lemma dict_set_fresh {V} (k : string) (v : V) (d : dict V) :
  dict_get k d = None -> dict_set k v d = d ++ [(k, v)].
Proof.
  induction d as [|[k' v'] d IH]; simpl; [reflexivity |].
  destruct (String.eqb k k'); [discriminate |].
  intros H. now rewrite IH.
Qed.

Lemma dict_get_In {V} (k : string) (v : V) (d : dict V) :
  dict_get k d = Some v -> In (k, v) d.
Proof.
  induction d as [|[k' v'] d IH]; simpl; [discriminate |].
  destruct (String.eqb_spec k k') as [->|_].
  - intros [= ->]. now left.
  - intros H. right. now apply IH.
Qed.

Lemma dict_get_app_None {V} (k : string) (d1 d2 : dict V) :
  dict_get k d1 = None -> dict_get k (d1 ++ d2) = dict_get k d2.
Proof.
  induction d1 as [|[k' v'] d1 IH]; simpl; [reflexivity |].
  destruct (String.eqb k k'); [discriminate | exact IH].
Qed.

(** ** Computations that only talk *)

Section Oblivious.

Lemma oblivious_intro {A} (m : M A) (a : result A) (evs : list event) :
  (forall w, m w = (a, extend w evs)) -> oblivious m.
Proof.
  intros H w. unfold answer_of, events_of. rewrite (H blank), (H w). reflexivity.
Qed.

Lemma oblivious_ret {A} (a : A) : oblivious (ret a).
Proof. apply (oblivious_intro _ (Ok a) []). intros w. now rewrite extend_nil. Qed.

Lemma oblivious_raise {A} (e : exn) : oblivious (@raise A e).
Proof. apply (oblivious_intro _ (Raise e) []). intros w. now rewrite extend_nil. Qed.

Lemma oblivious_emit (ev : event) : oblivious (emit ev).
Proof. now apply (oblivious_intro _ (Ok tt) [ev]). Qed.

Lemma oblivious_send {A} (r : request) (answer : result A) :
  oblivious (send r answer).
Proof. now apply (oblivious_intro _ answer [EvRequest r]). Qed.

Lemma oblivious_bind {A B} (m : M A) (k : A -> M B) :
  oblivious m -> (forall a, oblivious (k a)) -> oblivious (bind m k).
Proof.
  intros Hm Hk.
  destruct (answer_of m) as [a|e] eqn:Ha.
  - apply (oblivious_intro _ (answer_of (k a)) (events_of m ++ events_of (k a))).
    intros w. unfold bind. rewrite (Hm w), Ha, (Hk a). now rewrite extend_extend.
  - apply (oblivious_intro _ (Raise e) (events_of m)).
    intros w. unfold bind. now rewrite (Hm w), Ha.
Qed.

Lemma oblivious_try_except {A} (body : M A) (caught : exn -> bool)
    (handler : exn -> M A) :
  oblivious body -> (forall e, oblivious (handler e)) ->
  oblivious (try_except body caught handler).
Proof.
  intros Hb Hh.
  destruct (answer_of body) as [a|e] eqn:Ha.
  - apply (oblivious_intro _ (Ok a) (events_of body)).
    intros w. unfold try_except. now rewrite (Hb w), Ha.
  - destruct (caught e) eqn:Hc.
    + apply (oblivious_intro _ (answer_of (handler e))
               (events_of body ++ events_of (handler e))).
      intros w. unfold try_except. rewrite (Hb w), Ha, Hc, (Hh e).
      now rewrite extend_extend.
    + apply (oblivious_intro _ (Raise e) (events_of body)).
      intros w. unfold try_except. now rewrite (Hb w), Ha, Hc.
Qed.

Lemma oblivious_subscript {V} (d : dict V) (k : string) : oblivious (subscript d k).
Proof.
  unfold subscript. destruct (dict_get k d);
    [apply oblivious_ret | apply oblivious_raise].
Qed.

Lemma oblivious_raise_for_status (r : response) : oblivious (raise_for_status r).
Proof.
  unfold raise_for_status.
  destruct ((400 <=? status_code r)%Z && (status_code r <? 600)%Z);
    [apply oblivious_raise | apply oblivious_ret].
Qed.

Lemma oblivious_json_loads (r : response) : oblivious (json_loads r).
Proof.
  unfold json_loads. destruct (parsed r);
    [apply oblivious_ret | apply oblivious_raise].
Qed.

End Oblivious.

Create HintDb talk.

#[local] Hint Resolve oblivious_ret oblivious_raise oblivious_emit oblivious_send
  oblivious_subscript oblivious_raise_for_status oblivious_json_loads : talk.

Ltac talk :=
  repeat first
    [ progress auto with talk
    | apply oblivious_bind; [| intros ?]
    | apply oblivious_try_except; [| intros ?]
    | match goal with
      | |- oblivious (print _) => apply oblivious_emit
      | |- oblivious (match ?x with _ => _ end) => destruct x
      end ].

Lemma oblivious_get_host_id (cfg : config) (net : network) (host_name : string) :
  oblivious (get_host_id cfg net host_name).
Proof. unfold get_host_id. talk. Qed.

Lemma oblivious_get_item_list (cfg : config) (net : network) (host_id : string) :
  oblivious (get_item_list cfg net host_id).
Proof. unfold get_item_list. talk. Qed.

Lemma oblivious_resolve_host (cfg : config) (net : network) (host_name : string) :
  oblivious (resolve_host cfg net host_name).
Proof.
  unfold resolve_host. apply oblivious_try_except; [| intros e; talk].
  apply oblivious_bind; [apply oblivious_get_host_id |].
  intros [|first rest]; talk.
Qed.

Lemma oblivious_list_items (cfg : config) (net : network) (host_name host_id : string) :
  oblivious (list_items cfg net host_name host_id).
Proof.
  unfold list_items. apply oblivious_try_except; [| intros e; talk].
  apply oblivious_bind; [apply oblivious_get_item_list | intros items; talk].
Qed.

(** ** The queue builder *)

Lemma path_exists_extend (w : world) (evs : list event) (p : string) :
  path_exists (extend w evs) p = path_exists w p.
Proof. reflexivity. Qed.

Lemma missing_extend (w : world) (evs : list event) (entries : list (string * string)) :
  missing (extend w evs) entries = missing w entries.
Proof. reflexivity. Qed.

Lemma skipped_extend (w : world) (evs : list event) (entries : list (string * string)) :
  skipped (extend w evs) entries = skipped w entries.
Proof. reflexivity. Qed.

Lemma keeps_refl (w : world) : keeps w w.
Proof. split; auto. Qed.

Lemma keeps_trans (w1 w2 w3 : world) : keeps w1 w2 -> keeps w2 w3 -> keeps w1 w3.
Proof. intros [Hc1 H1] [Hc2 H2]. split; [congruence | auto]. Qed.

Lemma keeps_extend (w : world) (evs : list event) : keeps w (extend w evs).
Proof. split; auto. Qed.

Lemma keeps_with_directory (w : world) (evs : list event) (host_dir : string) :
  keeps w (with_directory w evs host_dir).
Proof.
  split; [reflexivity |]. intros p. unfold path_exists, with_directory. simpl.
  rewrite !orb_true_iff, !bool_decide_eq_true. intros [H | H]; [now left | right].
  set_solver.
Qed.

Lemma item_filename_text (cfg : config) (host_name name item_id : string) :
  item_filename cfg host_name (sanitize_filename name) item_id
  = host_name +:+ "_" +:+ sanitize_filename name +:+ "_" +:+ item_id +:+ "_"
    +:+ file_timestamp (start_time cfg) +:+ "_" +:+ file_timestamp (end_time cfg)
    +:+ ".png".
Proof.
  unfold item_filename. rewrite !strftime_file_timestamp.
  now rewrite !app_assoc_s.
Qed.

(** One item with an id and a name is queued, or skipped with a line. *)
Lemma queue_item_run (cfg : config) (host_name host_dir : string) (item : record)
    (e : string * string) (q : dict string) (w : world) :
  item_entry cfg host_name host_dir item = Some e ->
  queue_item cfg host_name host_dir item q w
  = if path_exists w (snd e)
    then (Ok q, extend w [EvPrint (MsgSkipping (snd e))])
    else (Ok (dict_set (fst e) (snd e) q), w).
Proof.
  unfold item_entry, queue_item, subscript.
  destruct (dict_get "itemid" item) as [item_id|]; [| discriminate].
  destruct (dict_get "name" item) as [name|]; [| discriminate].
  intros [= <-]. simpl fst. simpl snd.
  unfold bind, ret, os_path_exists, destination, export_url.
  rewrite item_filename_text.
  destruct (path_exists w _); reflexivity.
Qed.

(** An item without an id or without a name raises. *)
Lemma queue_item_raises (cfg : config) (host_name host_dir : string) (item : record)
    (q : dict string) (w : world) :
  item_entry cfg host_name host_dir item = None ->
  exists key, queue_item cfg host_name host_dir item q w = (Raise (KeyError key), w).
Proof.
  unfold item_entry, queue_item, subscript.
  destruct (dict_get "itemid" item) as [item_id|]; [| now eexists].
  destruct (dict_get "name" item) as [name|]; [discriminate | now eexists].
Qed.

(** The loop over the items of a host: the entries whose file is missing
    are assigned in order, the others are skipped with a line each. *)
Lemma queue_items_run (cfg : config) (host_name host_dir : string)
    (items : list record) (entries : list (string * string))
    (q : dict string) (w : world) :
  entries_of cfg host_name host_dir items entries ->
  queue_items cfg host_name host_dir items q w
  = (Ok (insert_all (missing w entries) q), extend w (skipped w entries)).
Proof.
  intros Hentries. revert q w.
  induction Hentries as [|item e items entries He _ IH]; intros q w.
  - simpl. unfold ret. now rewrite extend_nil.
  - cbn [queue_items]. unfold bind at 1.
    rewrite (queue_item_run _ _ _ _ e _ _ He).
    unfold missing, skipped. cbn [List.filter].
    destruct (path_exists w (snd e)) eqn:Hex; cbn [negb map].
    + rewrite IH, extend_extend. reflexivity.
    + rewrite IH. reflexivity.
Qed.

(** A loop that returns has met only items with an id and a name. *)
Lemma queue_items_returns (cfg : config) (host_name host_dir : string)
    (items : list record) (q q' : dict string) (w w' : world) :
  queue_items cfg host_name host_dir items q w = (Ok q', w') ->
  exists entries, entries_of cfg host_name host_dir items entries.
Proof.
  revert q w. induction items as [|item items IH]; intros q w Hrun.
  - exists []. constructor.
  - cbn [queue_items] in Hrun. unfold bind at 1 in Hrun.
    destruct (item_entry cfg host_name host_dir item) as [e|] eqn:He.
    + rewrite (queue_item_run _ _ _ _ e _ _ He) in Hrun.
      destruct (path_exists w (snd e));
        apply IH in Hrun as [entries Hentries];
        exists (e :: entries); now constructor.
    + destruct (queue_item_raises cfg host_name host_dir item q w He) as [key Hraise].
      rewrite Hraise in Hrun. discriminate.
Qed.

(** The body of the loop over the hosts, by what resolving and listing
    come to. *)
Lemma queue_host_run (cfg : config) (net : network) (host_name : string)
    (q : dict string) (w : world) :
  let evs1 := resolving_events cfg net host_name in
  let evs2 := listing_events cfg net host_name in
  queue_host cfg net host_name q w
  = match resolution cfg net host_name with
    | Raise e => (Raise e, extend w evs1)
    | Ok None => (Ok q, extend w evs1)
    | Ok (Some host_id) =>
        let host_dir := os_path_join (cwd w) host_name in
        let w1 := with_directory w evs1 host_dir in
        match listing cfg net host_name host_id with
        | Raise e => (Raise e, extend w1 (evs2 host_id))
        | Ok None => (Ok q, extend w1 (evs2 host_id))
        | Ok (Some items) =>
            queue_items cfg host_name host_dir items q (extend w1 (evs2 host_id))
        end
    end.
Proof.
  cbv zeta. unfold resolving_events, listing_events.
  unfold queue_host, resolution, listing.
  unfold bind at 1. unfold print, emit at 1.
  unfold bind at 1. rewrite (oblivious_resolve_host cfg net host_name _).
  unfold extend. cbn [trace files dirs cwd]. rewrite <- !app_assoc. cbn [app].
  destruct (answer_of (resolve_host cfg net host_name)) as [[host_id|]|e];
    [| reflexivity | reflexivity].
  unfold bind at 1, getcwd. cbn [cwd].
  unfold bind at 1, os_makedirs. cbn [files dirs cwd trace].
  unfold bind at 1. rewrite (oblivious_list_items cfg net host_name host_id _).
  unfold with_directory, extend. cbn [files dirs cwd trace].
  rewrite <- !app_assoc. cbn [app].
  destruct (answer_of (list_items cfg net host_name host_id)) as [[items|]|e];
    reflexivity.
Qed.

(** *** What a sequence of assignments leaves in the queue *)

Lemma find_app_last {A} (f : A -> bool) (l : list A) (a : A) :
  List.find f (l ++ [a])
  = match List.find f l with
    | Some x => Some x
    | None => if f a then Some a else None
    end.
Proof.
  induction l as [|x l IH]; simpl; [reflexivity |].
  destruct (f x); [reflexivity | exact IH].
Qed.

(** A key holds the path of the last entry assigned to it, or what it held
    before. *)
Lemma dict_get_insert_all (u : string) (entries : list (string * string))
    (q : dict string) :
  dict_get u (insert_all entries q)
  = match List.find (fun e => String.eqb (fst e) u) (rev entries) with
    | Some e => Some (snd e)
    | None => dict_get u q
    end.
Proof.
  revert q. induction entries as [|a entries IH]; intros q; [reflexivity |].
  cbn [insert_all fold_left rev]. fold (insert_all entries (dict_set (fst a) (snd a) q)).
  rewrite IH, find_app_last.
  destruct (List.find _ (rev entries)); [reflexivity |].
  destruct (String.eqb_spec (fst a) u) as [<-|Hne].
  - apply dict_get_set_eq.
  - now apply dict_get_set_ne.
Qed.

Lemma dict_get_insert_all_inv (u p : string) (entries : list (string * string))
    (q : dict string) :
  dict_get u (insert_all entries q) = Some p ->
  In (u, p) entries \/ dict_get u q = Some p.
Proof.
  rewrite dict_get_insert_all.
  destruct (List.find _ (rev entries)) as [[u' p']|] eqn:Hfind; [| now right].
  apply find_some in Hfind as [Hin Hu]. apply String.eqb_eq in Hu. simpl in Hu.
  intros [= <-]. left. subst u'. now apply in_rev.
Qed.

Lemma dict_get_insert_all_In (e : string * string) (entries : list (string * string))
    (q : dict string) :
  In e entries ->
  exists e', In e' entries /\ fst e' = fst e
             /\ dict_get (fst e) (insert_all entries q) = Some (snd e').
Proof.
  intros Hin. rewrite dict_get_insert_all.
  destruct (List.find _ (rev entries)) as [e'|] eqn:Hfind.
  - apply find_some in Hfind as [Hin' Hu]. apply String.eqb_eq in Hu.
    exists e'. split; [now apply in_rev | split; [exact Hu | reflexivity]].
  - apply in_rev in Hin. apply (find_none _ _ Hfind e) in Hin.
    now rewrite String.eqb_refl in Hin.
Qed.

Lemma missing_In (w : world) (entries : list (string * string)) (e : string * string) :
  In e (missing w entries) <-> In e entries /\ path_exists w (snd e) = false.
Proof.
  unfold missing. rewrite filter_In, negb_true_iff. reflexivity.
Qed.



(** ** Distinct items, distinct URLs *)

Lemma generate_graph_url_inj (zabbix_host : string) (t0 t1 : datetime)
    (width height : Z) (id1 id2 : string) :
  generate_graph_url zabbix_host t0 t1 id1 width height
  = generate_graph_url zabbix_host t0 t1 id2 width height ->
  id1 = id2.
Proof.
  rewrite !generate_graph_url_text. intros Heq.
  repeat (apply app_inv_head_s in Heq).
  apply quote_injective.
  apply (app_sep_inj "&" _ _ _ _ (quote_no_ampersand id1) (quote_no_ampersand id2) Heq).
Qed.

Lemma item_entry_url (cfg : config) (host_name host_dir : string) (item : record)
    (e : string * string) :
  item_entry cfg host_name host_dir item = Some e ->
  exists item_id, dict_get "itemid" item = Some item_id
                  /\ fst e = export_url cfg item_id.
Proof.
  unfold item_entry.
  destruct (dict_get "itemid" item) as [item_id|]; [| discriminate].
  destruct (dict_get "name" item); [| discriminate].
  intros [= <-]. now exists item_id.
Qed.

(** Items with distinct ids have entries with distinct URLs. *)
Lemma entries_of_NoDup (cfg : config) (host_name host_dir : string)
    (items : list record) (entries : list (string * string)) :
  entries_of cfg host_name host_dir items entries ->
  List.NoDup (map (dict_get "itemid") items) ->
  List.NoDup (map fst entries).
Proof.
  induction 1 as [|item e items entries He Hrest IH]; simpl; intros Hnodup.
  - constructor.
  - apply NoDup_cons_iff in Hnodup as [Hfresh Hnodup].
    apply NoDup_cons_iff. split; [| now apply IH].
    intros Hin. apply Hfresh. clear IH Hfresh Hnodup.
    destruct (item_entry_url _ _ _ _ _ He) as (item_id & Hid & Hurl).
    induction Hrest as [|item' e' items entries He' _ IH']; simpl in *; [contradiction |].
    destruct Hin as [Heq | Hin]; [left | right; now apply IH'].
    destruct (item_entry_url _ _ _ _ _ He') as (item_id' & Hid' & Hurl').
    rewrite Hid, Hid'. f_equal.
    apply (generate_graph_url_inj (ZABBIX_HOST cfg) (start_time cfg) (end_time cfg)
             (RESULTING_IMAGE_WIDTH cfg) (RESULTING_IMAGE_HEIGHT cfg)).
    unfold export_url in Hurl, Hurl'. congruence.
Qed.

(** Assigning fresh, distinct keys appends the entries. *)
Lemma insert_all_fresh (entries : list (string * string)) (q : dict string) :
  List.NoDup (map fst entries) ->
  (forall e, In e entries -> dict_get (fst e) q = None) ->
  insert_all entries q = q ++ entries.
Proof.
  revert q. induction entries as [|[u p] entries IH]; intros q Hnodup Hfresh.
  - simpl. now rewrite app_nil_r.
  - cbn [insert_all fold_left fst snd]. fold (insert_all entries (dict_set u p q)).
    simpl in Hnodup. apply NoDup_cons_iff in Hnodup as [Hu Hnodup].
    rewrite (dict_set_fresh u p q) by (apply (Hfresh (u, p)); now left).
    rewrite IH; [now rewrite <- app_assoc | exact Hnodup |].
    intros e Hin. rewrite dict_get_app_None by (apply Hfresh; now right).
    simpl. destruct (String.eqb_spec (fst e) u) as [Heq|_]; [| reflexivity].
    exfalso. apply Hu. rewrite <- Heq. now apply in_map.
Qed.

Lemma missing_all (w : world) (entries : list (string * string)) :
  (forall e, In e entries -> path_exists w (snd e) = false) ->
  missing w entries = entries /\ skipped w entries = [].
Proof.
  unfold missing, skipped. induction entries as [|e entries IH]; intros Hno.
  - split; reflexivity.
  - cbn [List.filter]. rewrite (Hno e) by now left. cbn [negb].
    destruct IH as [-> ->]; [| split; reflexivity].
    intros e' Hin. apply Hno. now right.
Qed.

(** C9: for a fixed server host, time range and size the URL builder is
    injective in the item id.  So in the loop over the items of a host,
    items with pairwise distinct ids, none of whose files is there and none
    of whose URLs is a key yet, add one entry each to the queue: the queue
    grows by exactly their entries, in order. *)
Theorem generate_graph_url_injective (zabbix_host : string) (t0 t1 : datetime)
    (width height : Z) :
  (forall id1 id2,
     generate_graph_url zabbix_host t0 t1 id1 width height
     = generate_graph_url zabbix_host t0 t1 id2 width height ->
     id1 = id2)
  /\ (forall cfg host_name host_dir items entries q w,
        entries_of cfg host_name host_dir items entries ->
        List.NoDup (map (dict_get "itemid") items) ->
        (forall e, In e entries ->
           path_exists w (snd e) = false /\ dict_get (fst e) q = None) ->
        queue_items cfg host_name host_dir items q w = (Ok (q ++ entries), w)
        /\ List.length (q ++ entries) = List.length q + List.length items).
Proof.
  split; [intros id1 id2; apply generate_graph_url_inj |].
  intros cfg host_name host_dir items entries q w Hentries Hnodup Hfresh.
  rewrite (queue_items_run _ _ _ _ entries _ _ Hentries).
  destruct (missing_all w entries) as [-> ->]; [intros e He; now apply Hfresh |].
  rewrite extend_nil, insert_all_fresh.
  - split; [reflexivity |].
    rewrite length_app. f_equal. clear -Hentries.
    induction Hentries; simpl; congruence.
  - now apply (entries_of_NoDup cfg host_name host_dir items).
  - intros e He. now apply Hfresh.
Qed.

(** Two items of [srv-a] with the ids 1 and 3: two entries. *)
Lemma generate_graph_url_injective_witness :
  queue_items Scenario.cfg "srv-a" "/work/srv-a"
              [Scenario.cpu_item; Scenario.disk_item] [] Scenario.w0
  = (Ok ([] ++ [(Scenario.cpu_url, Scenario.cpu_path);
                (Scenario.disk_url, Scenario.disk_path)]), Scenario.w0)
  /\ List.length ([] ++ [(Scenario.cpu_url, Scenario.cpu_path);
                         (Scenario.disk_url, Scenario.disk_path)])
     = List.length (@nil (string * string)) + 2.
Proof.
  apply (proj2 (generate_graph_url_injective "zbx.example"
                  (mk_datetime 2024 1 1 0 0 0) (mk_datetime 2024 1 2 0 0 0) 1920 200)
           Scenario.cfg "srv-a" "/work/srv-a").
  - repeat constructor.
  - vm_compute. repeat constructor; simpl; intuition discriminate.
  - intros e [<- | [<- | []]]; split; reflexivity.
Defined.

(** ** An answer without a [result] field *)

Ltac run_calls :=
  unfold resolution, listing, answer_of, events_of, resolve_host, list_items,
    get_host_id, get_item_list, try_except, bind, send, emit, print,
    raise_for_status, json_loads, subscript, ret, raise;
  cbn [fst snd trace files dirs cwd blank app].

(** Resolving a host whose answer has no [result] is handled: the host is
    skipped. *)
Lemma resolution_without_result (cfg : config) (net : network) (host_name : string)
    (r : response) (data : dict (list record)) :
  api_post net (ZABBIX_API_URL cfg) (host_get_payload host_name) (bearer_headers cfg)
  = Ok r ->
  ((400 <=? status_code r) && (status_code r <? 600))%Z = false ->
  parsed r = Some data ->
  dict_get "result" data = None ->
  resolution cfg net host_name = Ok None.
Proof.
  intros Hpost Hstatus Hparsed Hresult. run_calls.
  rewrite Hpost. simpl. rewrite Hstatus. simpl.
  rewrite Hparsed. simpl. rewrite Hresult. reflexivity.
Qed.

(** Listing the items of a host whose answer has no [result] is not: the
    [KeyError] leaves [create_download_queue]. *)
Lemma listing_without_result (cfg : config) (net : network) (host_name host_id : string)
    (r : response) (data : dict (list record)) :
  api_post net (ZABBIX_API_URL cfg) (item_get_payload host_id) (bearer_headers cfg)
  = Ok r ->
  ((400 <=? status_code r) && (status_code r <? 600))%Z = false ->
  parsed r = Some data ->
  dict_get "result" data = None ->
  listing cfg net host_name host_id = Raise (KeyError "result").
Proof.
  intros Hpost Hstatus Hparsed Hresult. run_calls.
  rewrite Hpost. simpl. rewrite Hstatus. simpl.
  rewrite Hparsed. simpl. rewrite Hresult. reflexivity.
Qed.

(** A host that does not resolve is skipped: the queue is as it was. *)
Lemma queue_host_skips_unresolved (cfg : config) (net : network) (host_name : string)
    (q : dict string) (w : world) :
  resolution cfg net host_name = Ok None ->
  queue_host cfg net host_name q w
  = (Ok q, extend w (resolving_events cfg net host_name)).
Proof. intros H. rewrite queue_host_run. cbv zeta. now rewrite H. Qed.

(** So is a host whose listing fails with an exception of line 262. *)
Lemma queue_host_skips_unlisted (cfg : config) (net : network)
    (host_name host_id : string) (q : dict string) (w : world) :
  resolution cfg net host_name = Ok (Some host_id) ->
  listing cfg net host_name host_id = Ok None ->
  fst (queue_host cfg net host_name q w) = Ok q.
Proof. intros H1 H2. rewrite queue_host_run. cbv zeta. now rewrite H1, H2. Qed.

(** C4, at a failing input: [srv-a] and [srv-b] both resolve, the items of
    [srv-a] are answered with an object without [result], [srv-b] has one
    item.  The [KeyError] is not among the exceptions of line 262, so
    [create_download_queue] and [main] end with it: no queue is returned
    and the image of [srv-b] is not fetched.  When the same answer comes
    for the resolution of [srv-a] instead, line 252 catches it and the
    queue holds the entry of [srv-b]. *)
Theorem listing_without_result_aborts_run :
  fst (create_download_queue Scenario.cfg Scenario.net_listing_error
         Scenario.session_cookies Scenario.w0)
  = Raise (KeyError "result")
  /\ fst (main Scenario.cfg Scenario.net_listing_error Scenario.w0)
     = Raise (KeyError "result")
  /\ files (snd (main Scenario.cfg Scenario.net_listing_error Scenario.w0))
       !! Scenario.mem_path = None
  /\ fst (create_download_queue Scenario.cfg Scenario.net_resolution_error
            Scenario.session_cookies Scenario.w0)
     = Ok [(Scenario.mem_url, Scenario.mem_path)].
Proof. repeat split; vm_compute; reflexivity. Qed.

(** ** The requests of the queue builder *)

Lemma Forall_bearer_one (cfg : config) (payload : rpc) :
  Forall (bearer_request cfg)
         [ApiPost (ZABBIX_API_URL cfg) payload (bearer_headers cfg)].
Proof. repeat constructor. now exists payload. Qed.

Lemma resolve_host_requests (cfg : config) (net : network) (host_name : string) :
  requests_of (events_of (resolve_host cfg net host_name))
  = [ApiPost (ZABBIX_API_URL cfg) (host_get_payload host_name) (bearer_headers cfg)].
Proof.
  run_calls.
  destruct (api_post net _ _ _) as [r|e]; simpl; [| now destruct (caught_at_252 e)].
  destruct ((400 <=? status_code r)%Z && (status_code r <? 600)%Z); simpl;
    [reflexivity |].
  destruct (parsed r) as [data|]; simpl; [| reflexivity].
  destruct (dict_get "result" data) as [[|first rest]|]; simpl; try reflexivity.
  destruct (dict_get "hostid" first); reflexivity.
Qed.

Lemma list_items_requests (cfg : config) (net : network) (host_name host_id : string) :
  requests_of (events_of (list_items cfg net host_name host_id))
  = [ApiPost (ZABBIX_API_URL cfg) (item_get_payload host_id) (bearer_headers cfg)].
Proof.
  run_calls.
  destruct (api_post net _ _ _) as [r|e]; simpl; [| now destruct (caught_at_262 e)].
  destruct ((400 <=? status_code r)%Z && (status_code r <? 600)%Z); simpl;
    [reflexivity |].
  destruct (parsed r) as [data|]; simpl; [| reflexivity].
  destruct (dict_get "result" data); reflexivity.
Qed.

Lemma requests_of_skipped (w : world) (entries : list (string * string)) :
  requests_of (skipped w entries) = [].
Proof.
  unfold skipped. induction (List.filter _ entries) as [|e l IH]; [reflexivity | exact IH].
Qed.

(** The loop over the items sends nothing. *)
Lemma queue_items_trace (cfg : config) (host_name host_dir : string)
    (items : list record) (q : dict string) (w : world) :
  exists evs,
    snd (queue_items cfg host_name host_dir items q w) = extend w evs
    /\ requests_of evs = [].
Proof.
  revert q w. induction items as [|item items IH]; intros q w.
  - exists []. simpl. now rewrite extend_nil.
  - cbn [queue_items]. unfold bind at 1.
    destruct (item_entry cfg host_name host_dir item) as [e|] eqn:He.
    + rewrite (queue_item_run _ _ _ _ e _ _ He).
      destruct (path_exists w (snd e)).
      * destruct (IH q (extend w [EvPrint (MsgSkipping (snd e))])) as (evs & -> & Hr).
        exists ([EvPrint (MsgSkipping (snd e))] ++ evs).
        now rewrite extend_extend.
      * apply IH.
    + destruct (queue_item_raises cfg host_name host_dir item q w He) as [key ->].
      exists []. simpl. now rewrite extend_nil.
Qed.

(** The body of the loop over the hosts sends requests to the API only,
    with the bearer token. *)
Lemma queue_host_trace (cfg : config) (net : network) (host_name : string)
    (q : dict string) (w : world) :
  exists evs,
    trace (snd (queue_host cfg net host_name q w)) = trace w ++ evs
    /\ Forall (bearer_request cfg) (requests_of evs).
Proof.
  rewrite queue_host_run. cbv zeta.
  assert (H1 : Forall (bearer_request cfg)
                 (requests_of (resolving_events cfg net host_name))).
  { unfold resolving_events. cbn [requests_of]. rewrite resolve_host_requests.
    apply Forall_bearer_one. }
  destruct (resolution cfg net host_name) as [[host_id|]|e];
    [| now exists (resolving_events cfg net host_name)
     | now exists (resolving_events cfg net host_name)].
  assert (H2 : Forall (bearer_request cfg)
                 (requests_of (resolving_events cfg net host_name
                               ++ [EvMakedirs (os_path_join (cwd w) host_name)]
                               ++ listing_events cfg net host_name host_id))).
  { rewrite !requests_of_app. cbn [requests_of app].
    apply Forall_app. split; [exact H1 |].
    unfold listing_events. rewrite list_items_requests. apply Forall_bearer_one. }
  set (evs := resolving_events cfg net host_name
              ++ [EvMakedirs (os_path_join (cwd w) host_name)]
              ++ listing_events cfg net host_name host_id) in *.
  assert (Ht : forall w', trace w' = trace w ++ evs ->
                 forall extra, requests_of extra = [] ->
                   trace (extend w' extra) = trace w ++ (evs ++ extra)
                   /\ Forall (bearer_request cfg) (requests_of (evs ++ extra))).
  { intros w' Hw' extra Hextra. simpl. rewrite Hw', <- app_assoc.
    split; [reflexivity |]. now rewrite requests_of_app, Hextra, app_nil_r. }
  assert (Hw1 : trace (extend (with_directory w (resolving_events cfg net host_name)
                                 (os_path_join (cwd w) host_name))
                              (listing_events cfg net host_name host_id))
                = trace w ++ evs).
  { unfold evs, extend, with_directory. cbn [trace]. now rewrite <- !app_assoc. }
  destruct (listing cfg net host_name host_id) as [[items|]|e].
  - destruct (queue_items_trace cfg host_name (os_path_join (cwd w) host_name) items q
                (extend (with_directory w (resolving_events cfg net host_name)
                           (os_path_join (cwd w) host_name))
                        (listing_events cfg net host_name host_id)))
      as (extra & -> & Hextra).
    exists (evs ++ extra). now apply Ht.
  - exists evs. split; [exact Hw1 | exact H2].
  - exists evs. split; [exact Hw1 | exact H2].
Qed.

Lemma queue_hosts_trace (cfg : config) (net : network) (hosts : list string)
    (q : dict string) (w : world) :
  exists evs,
    trace (snd (queue_hosts cfg net hosts q w)) = trace w ++ evs
    /\ Forall (bearer_request cfg) (requests_of evs).
Proof.
  revert q w. induction hosts as [|host_name hosts IH]; intros q w.
  - exists []. simpl. split; [now rewrite app_nil_r | constructor].
  - cbn [queue_hosts]. unfold bind at 1.
    destruct (queue_host_trace cfg net host_name q w) as (evs1 & Ht1 & Hr1).
    destruct (queue_host cfg net host_name q w) as [[q1|e] w1]; simpl in Ht1.
    + destruct (IH q1 w1) as (evs2 & Ht2 & Hr2).
      exists (evs1 ++ evs2). rewrite Ht2, Ht1, <- app_assoc.
      split; [reflexivity |]. rewrite requests_of_app. now apply Forall_app.
    + now exists evs1.
Qed.

(** C10: the queue builder does not read its [cookies] argument: with the
    same configuration, servers and world, two cookie values give the same
    result, queue and world alike.  Every request it sends goes to the API
    and carries the [Authorization: Bearer <token>] header and no other. *)
Theorem create_download_queue_ignores_cookies (cfg : config) (net : network)
    (cookies1 cookies2 : dict string) (w : world) :
  create_download_queue cfg net cookies1 w = create_download_queue cfg net cookies2 w
  /\ exists evs,
       trace (snd (create_download_queue cfg net cookies1 w)) = trace w ++ evs
       /\ Forall (bearer_request cfg) (requests_of evs).
Proof.
  split; [reflexivity |]. unfold create_download_queue. apply queue_hosts_trace.
Qed.

(** ** A second run *)

Lemma entries_of_In_entry (cfg : config) (host_name host_dir : string)
    (items : list record) (entries : list (string * string)) (e : string * string) :
  entries_of cfg host_name host_dir items entries ->
  In e entries ->
  exists item, In item items /\ item_entry cfg host_name host_dir item = Some e.
Proof.
  induction 1 as [|item e0 items entries He _ IH]; simpl; [contradiction |].
  intros [<- | Hin].
  - exists item. auto.
  - destruct (IH Hin) as (item' & Hin' & He'). exists item'. auto.
Qed.

Lemma entries_of_In_item (cfg : config) (host_name host_dir : string)
    (items : list record) (entries : list (string * string))
    (item : record) (e : string * string) :
  entries_of cfg host_name host_dir items entries ->
  In item items ->
  item_entry cfg host_name host_dir item = Some e ->
  In e entries.
Proof.
  induction 1 as [|item0 e0 items entries He0 _ IH]; simpl; [contradiction |].
  intros [<- | Hin] He.
  - left. congruence.
  - right. now apply IH.
Qed.

Lemma missing_none (w : world) (entries : list (string * string)) :
  (forall e, In e entries -> path_exists w (snd e) = true) ->
  missing w entries = [].
Proof.
  unfold missing. induction entries as [|e entries IH]; intros Hall; [reflexivity |].
  cbn [List.filter]. rewrite (Hall e) by now left. cbn [negb].
  apply IH. intros e' Hin. apply Hall. now right.
Qed.

Lemma planned_in_cons (cfg : config) (net : network) (here host_name : string)
    (hosts : list string) (e : string * string) :
  planned_in cfg net here (host_name :: hosts) e
  <-> planned_in cfg net here [host_name] e \/ planned_in cfg net here hosts e.
Proof.
  unfold planned_in. split.
  - intros (h & items & item & [<- | Hin] & Hrest).
    + left. exists host_name, items, item. split; [now left | exact Hrest].
    + right. exists h, items, item. auto.
  - intros [(h & items & item & [<- | []] & Hrest) | (h & items & item & Hin & Hrest)].
    + exists host_name, items, item. split; [now left | exact Hrest].
    + exists h, items, item. split; [now right | exact Hrest].
Qed.

Lemma planned_in_incl (cfg : config) (net : network) (here : string)
    (hosts hosts' : list string) (e : string * string) :
  incl hosts hosts' ->
  planned_in cfg net here hosts e -> planned_in cfg net here hosts' e.
Proof.
  intros Hincl (h & items & item & Hin & Hrest).
  exists h, items, item. split; [now apply Hincl | exact Hrest].
Qed.

(** The body of the host loop keeps the working directory and what is
    there. *)
Lemma queue_host_keeps (cfg : config) (net : network) (host_name : string)
    (q : dict string) (w : world) :
  keeps w (snd (queue_host cfg net host_name q w)).
Proof.
  rewrite queue_host_run. cbv zeta.
  destruct (resolution cfg net host_name) as [[host_id|]|e];
    [| apply keeps_extend | apply keeps_extend].
  assert (Hk : keeps w (extend (with_directory w (resolving_events cfg net host_name)
                                  (os_path_join (cwd w) host_name))
                               (listing_events cfg net host_name host_id))).
  { eapply keeps_trans; [apply keeps_with_directory | apply keeps_extend]. }
  destruct (listing cfg net host_name host_id) as [[items|]|e]; [| exact Hk | exact Hk].
  destruct (queue_items_trace cfg host_name (os_path_join (cwd w) host_name) items q
              (extend (with_directory w (resolving_events cfg net host_name)
                         (os_path_join (cwd w) host_name))
                      (listing_events cfg net host_name host_id)))
    as (extra & -> & _).
  eapply keeps_trans; [exact Hk | apply keeps_extend].
Qed.

Section SecondRun.

Variable cfg : config.
Variable net : network.
Variable here : string.

Hypothesis Hpaths : ids_determine_paths cfg net here.

(** Assigning entries of the run keeps the queue covering what it covered
    and makes it cover those entries. *)
Lemma covered_insert_all (D : string * string -> Prop)
    (entries : list (string * string)) (q : dict string) (w : world) :
  (forall e, D e -> planned_in cfg net here (HOST_LIST cfg) e) ->
  (forall e, In e entries -> planned_in cfg net here (HOST_LIST cfg) e) ->
  covered D q w ->
  covered (fun e => D e \/ In e entries) (insert_all (missing w entries) q) w.
Proof.
  intros HD Hentries Hcov e [He | He].
  - destruct (Hcov e He) as [Hthere | Hget]; [now left | right].
    rewrite dict_get_insert_all.
    destruct (List.find _ (rev (missing w entries))) as [e'|] eqn:Hfind; [| exact Hget].
    apply find_some in Hfind as [Hin Hu]. apply String.eqb_eq in Hu.
    apply in_rev, missing_In in Hin as [Hin _].
    f_equal. apply Hpaths; auto.
  - destruct (path_exists w (snd e)) eqn:Hthere; [now left | right].
    destruct (dict_get_insert_all_In e (missing w entries) q) as (e' & Hin' & Hu & Hget).
    { now apply missing_In. }
    apply missing_In in Hin' as [Hin' _].
    rewrite Hget. f_equal. apply Hpaths; auto.
Qed.

Lemma covered_keeps (D : string * string -> Prop) (q : dict string) (w w' : world) :
  keeps w w' -> covered D q w -> covered D q w'.
Proof.
  intros [_ Hk] Hcov e He. destruct (Hcov e He) as [Hthere | Hget]; auto.
Qed.

Lemma host_items_inv (host_name : string) (items : list record) :
  host_items cfg net host_name = Some items ->
  exists host_id, resolution cfg net host_name = Ok (Some host_id)
                  /\ listing cfg net host_name host_id = Ok (Some items).
Proof.
  unfold host_items.
  destruct (resolution cfg net host_name) as [[host_id|]|e]; try discriminate.
  destruct (listing cfg net host_name host_id) as [[items'|]|e] eqn:Hl; try discriminate.
  intros [= ->]. now exists host_id.
Qed.

(** One host of the first run. *)
Lemma queue_host_covers (D : string * string -> Prop) (host_name : string)
    (q q' : dict string) (w w' : world) :
  In host_name (HOST_LIST cfg) -> cwd w = here ->
  (forall e, D e -> planned_in cfg net here (HOST_LIST cfg) e) ->
  covered D q w ->
  queue_host cfg net host_name q w = (Ok q', w') ->
  covered (fun e => D e \/ planned_in cfg net here [host_name] e) q' w'.
Proof.
  intros Hhost Hcwd HD Hcov Hrun.
  pose proof (queue_host_keeps cfg net host_name q w) as Hkeeps.
  rewrite Hrun in Hkeeps. simpl in Hkeeps.
  rewrite queue_host_run in Hrun. cbv zeta in Hrun.
  assert (Hnone : host_items cfg net host_name = None ->
                  q' = q ->
                  covered (fun e => D e \/ planned_in cfg net here [host_name] e) q' w').
  { intros Hitems -> e [He | (h & items & item & [<- | []] & Hsome & _)].
    - now apply (covered_keeps D q w w').
    - congruence. }
  unfold host_items in Hnone.
  destruct (resolution cfg net host_name) as [[host_id|]|err] eqn:Hres;
    [| injection Hrun as <- _; now apply Hnone | discriminate].
  destruct (listing cfg net host_name host_id) as [[items|]|err] eqn:Hlist;
    [| injection Hrun as <- _; now apply Hnone | discriminate].
  clear Hnone. rewrite Hcwd in Hrun.
  destruct (queue_items_returns _ _ _ _ _ _ _ _ Hrun) as [entries Hentries].
  rewrite (queue_items_run _ _ _ _ entries _ _ Hentries) in Hrun.
  injection Hrun as <- <-.
  set (w1 := extend (with_directory w (resolving_events cfg net host_name)
                       (os_path_join here host_name))
                    (listing_events cfg net host_name host_id)) in *.
  assert (Hk1 : keeps w w1).
  { eapply keeps_trans; [apply keeps_with_directory | apply keeps_extend]. }
  assert (Hplanned : forall e, In e entries ->
                       planned_in cfg net here (HOST_LIST cfg) e).
  { intros e Hin.
    destruct (entries_of_In_entry _ _ _ _ _ e Hentries Hin) as (item & Hitem & He).
    exists host_name, items, item. repeat split; auto.
    unfold host_items. now rewrite Hres, Hlist. }
  apply (covered_keeps _ _ w1); [apply keeps_extend |].
  intros e He.
  apply (covered_insert_all D entries q w1 HD Hplanned (covered_keeps D q w w1 Hk1 Hcov)).
  destruct He as [He | (h & items' & item & [<- | []] & Hsome & Hitem & He)];
    [now left | right].
  unfold host_items in Hsome. rewrite Hres, Hlist in Hsome. injection Hsome as <-.
  now apply (entries_of_In_item _ _ _ _ _ item e Hentries).
Qed.

(** The hosts of the first run. *)
Lemma queue_hosts_covers (hosts : list string) :
  forall (D : string * string -> Prop) (q q' : dict string) (w w' : world),
    incl hosts (HOST_LIST cfg) -> cwd w = here ->
    (forall e, D e -> planned_in cfg net here (HOST_LIST cfg) e) ->
    covered D q w ->
    queue_hosts cfg net hosts q w = (Ok q', w') ->
    keeps w w'
    /\ covered (fun e => D e \/ planned_in cfg net here hosts e) q' w'.
Proof.
  induction hosts as [|host_name hosts IH]; intros D q q' w w' Hincl Hcwd HD Hcov Hrun.
  - injection Hrun as <- <-. split; [apply keeps_refl |].
    intros e [He | (h & _ & _ & [] & _)]. now apply Hcov.
  - cbn [queue_hosts] in Hrun. unfold bind at 1 in Hrun.
    pose proof (queue_host_keeps cfg net host_name q w) as Hk1.
    destruct (queue_host cfg net host_name q w) as [[q1|err] w1] eqn:Hhost;
      [| discriminate].
    simpl in Hk1.
    assert (Hin : In host_name (HOST_LIST cfg)) by (apply Hincl; now left).
    pose proof (queue_host_covers D host_name q q1 w w1 Hin Hcwd HD Hcov Hhost) as Hcov1.
    destruct (IH (fun e => D e \/ planned_in cfg net here [host_name] e) q1 q' w1 w')
      as [Hk2 Hcov2]; auto.
    + intros h Hh. apply Hincl. now right.
    + destruct Hk1 as [Hc _]. congruence.
    + intros e [He | He]; [now apply HD |].
      apply (planned_in_incl cfg net here [host_name]); [| exact He].
      intros h [<- | []]. exact Hin.
    + split; [now apply (keeps_trans w w1 w') |].
      intros e [He | He]; apply Hcov2; [now left; left |].
      apply planned_in_cons in He as [He | He]; [left; now right | now right].
Qed.

End SecondRun.

(** *** The downloads of the first run *)

Lemma keeps_written (w w' : world) (path data : string) :
  files w' = <[path := data]> (files w) -> dirs w' = dirs w -> cwd w' = cwd w ->
  keeps w w' /\ path_exists w' path = true.
Proof.
  intros Hf Hd Hc. unfold keeps, path_exists. rewrite Hf, Hd, Hc.
  split; [split; [reflexivity |] |].
  - intros p. rewrite !orb_true_iff, !bool_decide_eq_true.
    intros [H | H]; [left | now right].
    destruct (decide (path = p)) as [->|Hne].
    + rewrite lookup_insert_eq. eauto.
    + now rewrite lookup_insert_ne.
  - rewrite lookup_insert_eq. apply orb_true_iff. left.
    apply bool_decide_eq_true. eauto.
Qed.

(** A download returns, keeps what is there, and leaves the destination
    there when one of its attempts is answered with a 200. *)
Lemma download_image_keeps (net : network) (image_url file_path : string)
    (cookies : dict string) (retry_count : nat) (w : world) :
  exists saved w',
    download_image net image_url file_path cookies retry_count w = (Ok saved, w')
    /\ keeps w w'
    /\ ((exists k, k < retry_count
                   /\ is_200 (chart_post net image_url cookies k) = true) ->
        path_exists w' file_path = true).
Proof.
  unfold download_image.
  destruct (first_200 net image_url cookies retry_count)
    as [Hnone | (K & HK & Hok & Hbefore)].
  - destruct (download_attempts_all_fail net image_url file_path cookies retry_count
                retry_count 0 w Hnone) as (evs & -> & _).
    exists false, (extend w evs). split; [reflexivity |].
    split; [apply keeps_extend |].
    intros (k & Hk & Hk200). rewrite (Hnone k Hk) in Hk200. discriminate.
  - destruct (download_attempts_succeed net image_url file_path cookies retry_count
                K retry_count 0 w HK Hbefore Hok)
      as (evs & w' & -> & _ & _ & _ & Hf & Hd & Hc).
    destruct (keeps_written w w' _ _ Hf Hd Hc) as [Hkeeps Hthere].
    exists true, w'. auto.
Qed.

Lemma run_threads_keeps (cfg : config) (net : network) (entries : dict string)
    (cookies : dict string) (w : world) :
  exists w',
    run_threads cfg net entries cookies w = (Ok tt, w')
    /\ keeps w w'
    /\ (forall url file_path,
          In (url, file_path) entries ->
          (exists k, k < DOWNLOAD_RETRY_COUNT cfg
                     /\ is_200 (chart_post net url cookies k) = true) ->
          path_exists w' file_path = true).
Proof.
  revert w. induction entries as [|[u p] entries IH]; intros w.
  - exists w. split; [reflexivity | split; [apply keeps_refl |]]. intros ? ? [].
  - cbn [run_threads]. unfold bind at 1.
    destruct (download_image_keeps net u p cookies (DOWNLOAD_RETRY_COUNT cfg) w)
      as (saved & w1 & -> & Hk1 & Hthere1).
    destruct (IH w1) as (w' & -> & Hk2 & Hthere2).
    exists w'. split; [reflexivity |].
    split; [now apply (keeps_trans w w1 w') |].
    intros url file_path [[= <- <-] | Hin] Hok.
    + apply Hk2. now apply Hthere1.
    + now apply (Hthere2 url file_path).
Qed.

Lemma download_images_keeps (cfg : config) (net : network) (q : dict string)
    (cookies : dict string) (w : world) :
  downloads_succeed cfg net cookies q ->
  exists w',
    download_images_multithreaded cfg net q cookies w = (Ok tt, w')
    /\ keeps w w'
    /\ (forall url file_path, In (url, file_path) q -> path_exists w' file_path = true).
Proof.
  intros Hok. unfold download_images_multithreaded.
  destruct q as [|entry q].
  - exists (extend w [EvPrint MsgNoImages]).
    split; [reflexivity | split; [apply keeps_extend |]]. intros ? ? [].
  - set (queue := entry :: q) in *. unfold bind at 1, print, emit at 1.
    unfold bind at 1.
    destruct (run_threads_keeps cfg net queue cookies
                (extend w [EvPrint (MsgStarting (List.length queue))]))
      as (w1 & Hrun & Hk & Hthere).
    unfold extend in Hrun. rewrite Hrun.
    exists (extend w1 [EvPrint MsgAllDone]).
    split; [reflexivity |].
    split.
    + eapply keeps_trans; [apply keeps_extend |].
      eapply keeps_trans; [exact Hk | apply keeps_extend].
    + intros url file_path Hin. apply (keeps_extend w1).
      apply (Hthere url file_path Hin). now apply (Hok url file_path).
Qed.

(** *** The second run *)

(** Where a run over some hosts has returned, a run over the same hosts in
    a world in which the files of all their items are there returns the
    queue it was given. *)
Lemma queue_hosts_all_there (cfg : config) (net : network) (here : string)
    (hosts : list string) :
  forall (q1 q1' q2 : dict string) (w1 w1' w2 : world),
    queue_hosts cfg net hosts q1 w1 = (Ok q1', w1') ->
    cwd w1 = here -> cwd w2 = here ->
    (forall e, planned_in cfg net here hosts e -> path_exists w2 (snd e) = true) ->
    exists w2', queue_hosts cfg net hosts q2 w2 = (Ok q2, w2') /\ keeps w2 w2'.
Proof.
  induction hosts as [|host_name hosts IH];
    intros q1 q1' q2 w1 w1' w2 Hrun Hc1 Hc2 Hthere.
  - exists w2. split; [reflexivity | apply keeps_refl].
  - cbn [queue_hosts] in Hrun |- *. unfold bind at 1 in Hrun. unfold bind at 1.
    pose proof (queue_host_keeps cfg net host_name q1 w1) as Hk1.
    pose proof (queue_host_keeps cfg net host_name q2 w2) as Hk2.
    destruct (queue_host cfg net host_name q1 w1) as [[q1m|err] w1m] eqn:Hhost1;
      [| discriminate].
    simpl in Hk1.
    assert (Hhost2 : fst (queue_host cfg net host_name q2 w2) = Ok q2).
    { rewrite queue_host_run in Hhost1 |- *. cbv zeta in Hhost1 |- *.
      unfold planned_in, host_items in Hthere.
      destruct (resolution cfg net host_name) as [[host_id|]|err] eqn:Hres;
        [| reflexivity | discriminate].
      destruct (listing cfg net host_name host_id) as [[items|]|err] eqn:Hlist;
        [| reflexivity | discriminate].
      rewrite Hc1 in Hhost1. rewrite Hc2.
      destruct (queue_items_returns _ _ _ _ _ _ _ _ Hhost1) as [entries Hentries].
      rewrite (queue_items_run _ _ _ _ entries _ _ Hentries).
      rewrite missing_none; [reflexivity |].
      intros e Hin. rewrite path_exists_extend.
      apply keeps_with_directory. apply Hthere.
      destruct (entries_of_In_entry _ _ _ _ _ e Hentries Hin) as (item & Hitem & He).
      exists host_name, items, item. rewrite Hres, Hlist.
      repeat split; auto. now left. }
    destruct (queue_host cfg net host_name q2 w2) as [r2 w2m]. simpl in Hhost2, Hk2.
    subst r2.
    destruct (IH q1m q1' q2 w1m w1' w2m Hrun) as (w2' & -> & Hk3).
    + destruct Hk1 as [Hc _]. congruence.
    + destruct Hk2 as [Hc _]. congruence.
    + intros e He. apply Hk2. apply Hthere. apply planned_in_cons. now right.
    + exists w2'. split; [reflexivity | now apply (keeps_trans w2 w2m w2')].
Qed.




(** Nor is the second queue empty when every download succeeds but the
    server lists two items under one id: the later entry replaces the
    earlier one under their URL, one file is fetched, and the second run
    queues the other. *)
Lemma second_run_requeues_replaced_entry :
  fst (create_download_queue Scenario.cfg Scenario.net_same_id
         Scenario.session_cookies Scenario.w0)
  = Ok [(Scenario.cpu_url, Scenario.cpu_load_path)]
  /\ fst (main Scenario.cfg Scenario.net_same_id Scenario.w0) = Ok tt
  /\ fst (create_download_queue Scenario.cfg Scenario.net_same_id
            Scenario.session_cookies
            (snd (main Scenario.cfg Scenario.net_same_id Scenario.w0)))
     = Ok [(Scenario.cpu_url, Scenario.cpu_path)].
Proof. repeat split; vm_compute; reflexivity. Qed.

(** * Further properties of the program *)

(** ** The URL builder, the sanitizer and the file name *)

Lemma all_chars_weaken (p p' : ascii -> bool) (s : string) :
  (forall c, p c = true -> p' c = true) ->
  all_chars p s = true -> all_chars p' s = true.
Proof.
  intros Hpp'. induction s as [|c s IH]; simpl; [reflexivity |].
  rewrite !andb_true_iff. intros [Hc Hs]. auto.
Qed.

Lemma query_char_quote (v : string) : all_chars query_char (quote v) = true.
Proof.
  apply (all_chars_weaken quoted_char); [| apply quote_chars].
  intros c Hc. unfold query_char. now rewrite Hc.
Qed.

(** X1: whatever the item id, the time range and the sizes, the query of
    the URL holds only the characters that [quote] leaves or makes
    (letters, digits, [_.-~], [/] and [%]) and the punctuation [=&[]] of
    the parameter names: no space, no quote, no byte outside ASCII. *)
Theorem generate_graph_url_query_characters (zabbix_host : string)
    (t0 t1 : datetime) (item_id : string) (width height : Z) :
  exists query,
    generate_graph_url zabbix_host t0 t1 item_id width height
    = "https://" +:+ zabbix_host +:+ "/chart.php?" +:+ query
    /\ all_chars query_char query = true.
Proof.
  exists (Text.join "&" (chart_parameters t0 t1 item_id width height)).
  split; [apply generate_graph_url_join |].
  unfold chart_parameters. cbn [Text.join].
  rewrite !all_chars_app, !query_char_quote. reflexivity.
Qed.

Lemma filter_chars_app (f : ascii -> bool) (a b : string) :
  Text.filter_chars f (a +:+ b) = Text.filter_chars f a +:+ Text.filter_chars f b.
Proof.
  induction a as [|c a IH]; simpl; [reflexivity |].
  destruct (f c); simpl; now rewrite IH.
Qed.

Lemma filter_chars_length (f : ascii -> bool) (s : string) :
  String.length (Text.filter_chars f s) <= String.length s.
Proof.
  induction s as [|c s IH]; simpl; [lia |].
  destruct (f c); simpl; lia.
Qed.

(** X2: the sanitizer works character by character: the sanitized
    concatenation of two strings is the concatenation of the two sanitized
    strings, and the output is never longer than the input. *)
Theorem sanitize_filename_concatenation (a b : string) :
  sanitize_filename (a +:+ b) = sanitize_filename a +:+ sanitize_filename b
  /\ String.length (sanitize_filename a) <= String.length a.
Proof.
  rewrite !sanitize_filename_filter. split.
  - apply filter_chars_app.
  - apply filter_chars_length.
Qed.

Lemma string_of_uint_digits (d : Decimal.uint) :
  all_chars is_digit (NilEmpty.string_of_uint d) = true.
Proof. induction d; simpl; auto. Qed.

Lemma zero_padded_digits (width n : nat) :
  all_chars is_digit (zero_padded width n) = true.
Proof.
  unfold zero_padded. rewrite all_chars_app. apply andb_true_iff. split.
  - induction (width - _) as [|k IH]; simpl; auto.
  - unfold NilZero.string_of_uint.
    destruct (Nat.to_uint n) eqn:Hd; try reflexivity;
      rewrite <- Hd; apply string_of_uint_digits.
Qed.

Lemma zero_padded_stamp (width n : nat) :
  all_chars stamp_char (zero_padded width n) = true.
Proof.
  apply (all_chars_weaken is_digit); [| apply zero_padded_digits].
  intros c Hc. unfold stamp_char. now rewrite Hc.
Qed.

Lemma file_timestamp_chars (t : datetime) :
  all_chars stamp_char (file_timestamp t) = true.
Proof.
  unfold file_timestamp. rewrite !all_chars_app, !zero_padded_stamp. reflexivity.
Qed.

(** X3: the file name of an item holds none of the nine denylisted
    characters, and so no path separator, as soon as the host name and the
    item id hold none: the item name is sanitized and the two time stamps
    are digits, [-] and [_]; the host name and the item id are copied as
    they are. *)
Theorem item_filename_without_denylisted (cfg : config)
    (host_name name item_id : string) (c : ascii) :
  In c denylisted ->
  Text.contains c host_name = false ->
  Text.contains c item_id = false ->
  Text.contains c (item_filename cfg host_name (sanitize_filename name) item_id)
  = false.
Proof.
  intros Hc Hhost Hid.
  assert (Hforbidden : forbidden_char c = true).
  { rewrite forbidden_char_denylisted. apply existsb_exists.
    exists c. split; [exact Hc | apply Ascii.eqb_refl]. }
  assert (Hname : Text.contains c (sanitize_filename name) = false).
  { rewrite sanitize_filename_filter. apply filter_chars_contains.
    now rewrite Hforbidden. }
  assert (Hstamp : forall t, Text.contains c (file_timestamp t) = false).
  { intros t. apply (all_chars_contains stamp_char); [apply file_timestamp_chars |].
    unfold denylisted in Hc. simpl in Hc.
    repeat (destruct Hc as [<- | Hc]; [reflexivity |]). contradiction. }
  assert (Hlit : Text.contains c "_" = false /\ Text.contains c ".png" = false).
  { unfold denylisted in Hc. simpl in Hc.
    repeat (destruct Hc as [<- | Hc]; [split; reflexivity |]). contradiction. }
  destruct Hlit as [Hu Hpng].
  rewrite item_filename_text, !contains_app, Hhost, Hid, Hname, !Hstamp, Hu, Hpng.
  reflexivity.
Qed.

(** No [/] in the file name of the item [Disk: /] of [srv-a]. *)
Lemma item_filename_without_denylisted_witness :
  Text.contains "/"
    (item_filename Scenario.cfg "srv-a" (sanitize_filename "Disk: /") "3") = false.
Proof.
  apply (item_filename_without_denylisted Scenario.cfg "srv-a" "Disk: /" "3" "/").
  - simpl. tauto.
  - reflexivity.
  - reflexivity.
Defined.

(** ** The host of the API URL (line 20) *)

Lemma eqb_app_nonempty (a b : string) (c : ascii) :
  String.eqb (a +:+ String c b) "" = false.
Proof. destruct a; reflexivity. Qed.

Lemma split_from_sep (sep : ascii) (cur rest : string) :
  Text.split_from sep cur (String sep rest) = cur :: Text.split_from sep "" rest.
Proof. simpl. now rewrite Ascii.eqb_refl. Qed.

(** X4: the server host is the piece of the API URL between the second
    and the third [/]: for a URL [<scheme>//<host>/<path>], or
    [<scheme>//<host>] without a path, it is [<host>].  An empty URL gives
    the empty host, and a URL that is not empty and has no [/] gives none
    (the [IndexError] of line 20). *)
Theorem zabbix_host_of_url (scheme host path : string) :
  Text.contains "/" scheme = false ->
  Text.contains "/" host = false ->
  zabbix_host_of (scheme +:+ "//" +:+ host +:+ "/" +:+ path) = Some host
  /\ zabbix_host_of (scheme +:+ "//" +:+ host) = Some host
  /\ zabbix_host_of "" = Some ""
  /\ (scheme <> "" -> zabbix_host_of scheme = None).
Proof.
  intros Hscheme Hhost. unfold zabbix_host_of, Text.split.
  cbn [String.append]. rewrite !eqb_app_nonempty.
  repeat split.
  - rewrite split_from_next by exact Hscheme.
    rewrite split_from_sep.
    rewrite split_from_next by exact Hhost. reflexivity.
  - rewrite split_from_next by exact Hscheme.
    rewrite split_from_sep.
    rewrite split_from_piece by exact Hhost. reflexivity.
  - intros Hne. destruct scheme as [|c s]; [contradiction |].
    cbn [String.eqb]. rewrite split_from_piece by exact Hscheme. reflexivity.
Qed.

(** The host of [https://zbx.example/api_jsonrpc.php]. *)
Lemma zabbix_host_of_url_witness :
  zabbix_host_of ("https:" +:+ "//" +:+ "zbx.example" +:+ "/" +:+ "api_jsonrpc.php")
  = Some "zbx.example".
Proof.
  apply (zabbix_host_of_url "https:" "zbx.example" "api_jsonrpc.php"); reflexivity.
Defined.

(** ** The two API calls *)


(** What the [try] of lines 244-254 makes of the answer. *)
Lemma resolution_outcome (cfg : config) (net : network) (host_name : string) :
  resolution cfg net host_name
  = match api_outcome (host_get_answer cfg net host_name) with
    | Raise e => if caught_at_252 e then Ok None else Raise e
    | Ok [] => Ok None
    | Ok (first :: _) =>
        match dict_get "hostid" first with
        | Some host_id => Ok (Some host_id)
        | None => Ok None
        end
    end.
Proof.
  unfold host_get_answer, api_outcome, error_status. run_calls.
  destruct (api_post net _ _ _) as [r|e]; simpl; [| now destruct (caught_at_252 e)].
  destruct ((400 <=? status_code r)%Z && (status_code r <? 600)%Z); simpl;
    [reflexivity |].
  destruct (parsed r) as [data|]; simpl; [| reflexivity].
  destruct (dict_get "result" data) as [[|first rest]|]; simpl; try reflexivity.
  destruct (dict_get "hostid" first); reflexivity.
Qed.

(** What the [try] of lines 260-264 makes of the answer. *)
Lemma listing_outcome (cfg : config) (net : network) (host_name host_id : string) :
  listing cfg net host_name host_id
  = match api_outcome (item_get_answer cfg net host_id) with
    | Raise e => if caught_at_262 e then Ok None else Raise e
    | Ok items => Ok (Some items)
    end.
Proof.
  unfold item_get_answer, api_outcome, error_status. run_calls.
  destruct (api_post net _ _ _) as [r|e]; simpl; [| now destruct (caught_at_262 e)].
  destruct ((400 <=? status_code r)%Z && (status_code r <? 600)%Z); simpl;
    [reflexivity |].
  destruct (parsed r) as [data|]; simpl; [| reflexivity].
  destruct (dict_get "result" data); reflexivity.
Qed.

Lemma unresolved_resolution (cfg : config) (net : network) (host_name : string) :
  unresolved cfg net host_name -> resolution cfg net host_name = Ok None.
Proof.
  unfold unresolved. rewrite resolution_outcome. fold (host_get_answer cfg net host_name).
  destruct (api_outcome (host_get_answer cfg net host_name)) as [[|first rest]|e].
  - reflexivity.
  - now intros ->.
  - now intros ->.
Qed.

(** ** The loops of the queue builder and the file system *)

Lemma same_fs_refl (w : world) : same_fs w w.
Proof. repeat split. Qed.

Lemma same_fs_extend (w w' : world) (evs evs' : list event) :
  same_fs w w' -> same_fs (extend w evs) (extend w' evs').
Proof. intros H. exact H. Qed.

Lemma same_fs_path_exists (w w' : world) (p : string) :
  same_fs w w' -> path_exists w p = path_exists w' p.
Proof. intros (Hf & Hd & _). unfold path_exists. now rewrite Hf, Hd. Qed.

Lemma queue_items_cons (cfg : config) (host_name host_dir : string)
    (item : record) (items : list record) (q : dict string) (w : world) :
  queue_items cfg host_name host_dir (item :: items) q w
  = match queue_item cfg host_name host_dir item q w with
    | (Ok q', w') => queue_items cfg host_name host_dir items q' w'
    | (Raise e, w') => (Raise e, w')
    end.
Proof. reflexivity. Qed.

Lemma queue_hosts_cons (cfg : config) (net : network) (host_name : string)
    (hosts : list string) (q : dict string) (w : world) :
  queue_hosts cfg net (host_name :: hosts) q w
  = match queue_host cfg net host_name q w with
    | (Ok q', w') => queue_hosts cfg net hosts q' w'
    | (Raise e, w') => (Raise e, w')
    end.
Proof. reflexivity. Qed.

Lemma queue_items_same_fs (cfg : config) (host_name host_dir : string)
    (items : list record) (q : dict string) (w w' : world) :
  same_fs w w' ->
  fst (queue_items cfg host_name host_dir items q w)
  = fst (queue_items cfg host_name host_dir items q w')
  /\ same_fs (snd (queue_items cfg host_name host_dir items q w))
             (snd (queue_items cfg host_name host_dir items q w')).
Proof.
  revert q w w'. induction items as [|item items IH]; intros q w w' Hsame.
  - split; [reflexivity | exact Hsame].
  - rewrite !queue_items_cons.
    destruct (item_entry cfg host_name host_dir item) as [e|] eqn:He.
    + rewrite !(queue_item_run _ _ _ _ e _ _ He).
      rewrite <- (same_fs_path_exists w w' (snd e) Hsame).
      destruct (path_exists w (snd e)); apply IH; [| exact Hsame].
      now apply same_fs_extend.
    + unfold item_entry in He. unfold queue_item, subscript, bind, raise, ret.
      destruct (dict_get "itemid" item); [| split; [reflexivity | exact Hsame]].
      destruct (dict_get "name" item);
        [discriminate | split; [reflexivity | exact Hsame]].
Qed.

Lemma queue_host_same_fs (cfg : config) (net : network) (host_name : string)
    (q : dict string) (w w' : world) :
  same_fs w w' ->
  fst (queue_host cfg net host_name q w) = fst (queue_host cfg net host_name q w')
  /\ same_fs (snd (queue_host cfg net host_name q w))
             (snd (queue_host cfg net host_name q w')).
Proof.
  intros Hsame. rewrite !queue_host_run. cbv zeta.
  destruct Hsame as (Hf & Hd & Hc). rewrite <- Hc.
  destruct (resolution cfg net host_name) as [[host_id|]|e];
    [| split; [reflexivity | repeat split; assumption]
     | split; [reflexivity | repeat split; assumption]].
  assert (Hsame1 : same_fs
            (extend (with_directory w (resolving_events cfg net host_name)
                       (os_path_join (cwd w) host_name))
                    (listing_events cfg net host_name host_id))
            (extend (with_directory w' (resolving_events cfg net host_name)
                       (os_path_join (cwd w) host_name))
                    (listing_events cfg net host_name host_id))).
  { unfold same_fs, extend, with_directory. simpl. now rewrite Hf, Hd, Hc. }
  destruct (listing cfg net host_name host_id) as [[items|]|e];
    [| split; [reflexivity | exact Hsame1] | split; [reflexivity | exact Hsame1]].
  now apply queue_items_same_fs.
Qed.

(** The loop over the hosts reads the world through its file system and
    working directory only. *)
Lemma queue_hosts_same_fs (cfg : config) (net : network) (hosts : list string)
    (q : dict string) (w w' : world) :
  same_fs w w' ->
  fst (queue_hosts cfg net hosts q w) = fst (queue_hosts cfg net hosts q w')
  /\ same_fs (snd (queue_hosts cfg net hosts q w))
             (snd (queue_hosts cfg net hosts q w')).
Proof.
  revert q w w'. induction hosts as [|host_name hosts IH]; intros q w w' Hsame.
  - split; [reflexivity | exact Hsame].
  - rewrite !queue_hosts_cons.
    destruct (queue_host_same_fs cfg net host_name q w w' Hsame) as [Hfst Hsnd].
    destruct (queue_host cfg net host_name q w) as [r1 w1].
    destruct (queue_host cfg net host_name q w') as [r2 w2].
    simpl in Hfst, Hsnd. subst r2.
    destruct r1 as [q1|e]; [now apply IH | split; [reflexivity | exact Hsnd]].
Qed.

Lemma queue_hosts_app (cfg : config) (net : network) (before after : list string)
    (q : dict string) (w : world) :
  queue_hosts cfg net (before ++ after) q w
  = match queue_hosts cfg net before q w with
    | (Ok q', w') => queue_hosts cfg net after q' w'
    | (Raise e, w') => (Raise e, w')
    end.
Proof.
  revert q w. induction before as [|host_name before IH]; intros q w; [reflexivity |].
  cbn [app]. rewrite !queue_hosts_cons.
  destruct (queue_host cfg net host_name q w) as [[q1|e] w1]; [apply IH | reflexivity].
Qed.

(** X6: a configured host whose resolution fails in a way line 252
    handles, or that matches no host, is skipped and changes nothing for
    the others: the loop over the hosts gives the same queue (or the same
    exception) and leaves the same files and directories as the loop over
    the list without that host, whatever the hosts before and after it. *)
Theorem unresolved_host_is_isolated (cfg : config) (net : network)
    (before after : list string) (host_name : string) (q : dict string) (w : world) :
  unresolved cfg net host_name ->
  fst (queue_hosts cfg net (before ++ host_name :: after) q w)
  = fst (queue_hosts cfg net (before ++ after) q w)
  /\ same_fs (snd (queue_hosts cfg net (before ++ host_name :: after) q w))
             (snd (queue_hosts cfg net (before ++ after) q w)).
Proof.
  intros Hun. rewrite !queue_hosts_app.
  destruct (queue_hosts cfg net before q w) as [[q1|e] w1];
    [| split; [reflexivity | apply same_fs_refl]].
  rewrite queue_hosts_cons.
  rewrite (queue_host_skips_unresolved cfg net host_name q1 w1
             (unresolved_resolution cfg net host_name Hun)).
  apply queue_hosts_same_fs. repeat split.
Qed.

(** [srv-b], answered with a status 500, between no host and no host. *)
Lemma unresolved_host_is_isolated_witness :
  fst (queue_hosts Scenario.cfg Scenario.net_good (["srv-a"] ++ "srv-b" :: [])
         [] Scenario.w0)
  = fst (queue_hosts Scenario.cfg Scenario.net_good (["srv-a"] ++ []) [] Scenario.w0)
  /\ same_fs (snd (queue_hosts Scenario.cfg Scenario.net_good (["srv-a"] ++ "srv-b" :: [])
                     [] Scenario.w0))
             (snd (queue_hosts Scenario.cfg Scenario.net_good (["srv-a"] ++ [])
                     [] Scenario.w0)).
Proof.
  apply (unresolved_host_is_isolated Scenario.cfg Scenario.net_good ["srv-a"] []
           "srv-b" [] Scenario.w0).
  vm_compute. reflexivity.
Defined.



(** X8: an exception of the resolution that line 252 does not catch, a
    lost connection or a timeout, ends the loop over the hosts with that
    exception: once the hosts before it are done, only the request for the
    failing host is sent and the hosts after it are not processed. *)
Theorem uncaught_resolution_error_ends_loop (cfg : config) (net : network)
    (before after : list string) (host_name : string) (e : exn)
    (q q1 : dict string) (w w1 : world) :
  queue_hosts cfg net before q w = (Ok q1, w1) ->
  host_get_answer cfg net host_name = Raise e ->
  caught_at_252 e = false ->
  queue_hosts cfg net (before ++ host_name :: after) q w
  = (Raise e, extend w1 (resolving_events cfg net host_name))
  /\ requests_of (resolving_events cfg net host_name)
     = [host_get_request cfg host_name].
Proof.
  intros Hbefore Hanswer Hcaught.
  rewrite queue_hosts_app, Hbefore, queue_hosts_cons, queue_host_run. cbv zeta.
  rewrite resolution_outcome, Hanswer. cbn [api_outcome]. rewrite Hcaught.
  split; [reflexivity |].
  unfold resolving_events. cbn [requests_of]. apply resolve_host_requests.
Qed.

(** The connection is lost while [srv-b] is resolved, after [srv-a]. *)
Lemma uncaught_resolution_error_ends_loop_witness :
  queue_hosts Scenario.cfg Scenario.net_connection_lost (["srv-a"] ++ "srv-b" :: [])
              [] Scenario.w0
  = (Raise ConnectionError,
     extend (snd (queue_hosts Scenario.cfg Scenario.net_connection_lost ["srv-a"]
                    [] Scenario.w0))
            (resolving_events Scenario.cfg Scenario.net_connection_lost "srv-b"))
  /\ requests_of (resolving_events Scenario.cfg Scenario.net_connection_lost "srv-b")
     = [host_get_request Scenario.cfg "srv-b"].
Proof.
  apply (uncaught_resolution_error_ends_loop Scenario.cfg Scenario.net_connection_lost
           ["srv-a"] [] "srv-b" ConnectionError []
           [(Scenario.cpu_url, Scenario.cpu_path)]).
  - apply injective_projections; [vm_compute; reflexivity | reflexivity].
  - reflexivity.
  - reflexivity.
Defined.

(** ** The login and [main] *)

Lemma get_auth_cookies_succeeds (cfg : config) (net : network) (r : response)
    (jar : dict string) (w : world) :
  session_post net (login_url cfg) (login_data cfg) = Ok (r, jar) ->
  error_status r = false ->
  get_auth_cookies cfg net w
  = (Ok (cookie_header jar),
     extend w [EvRequest (SessionPost (login_url cfg) (login_data cfg))]).
Proof.
  intros Hpost Hstatus.
  unfold get_auth_cookies, send, bind, emit, raise_for_status, ret, extend.
  change (dict_of [("form", "1"); ("form_refresh", "1");
                   ("name", WEB_UI_USERNAME cfg); ("password", WEB_UI_PASSWORD cfg);
                   ("enter", "Enter")]) with (login_data cfg).
  fold (login_url cfg). simpl. rewrite Hpost. simpl.
  unfold error_status in Hstatus. rewrite Hstatus. reflexivity.
Qed.

Lemma main_logged_in (cfg : config) (net : network) (r : response)
    (jar : dict string) (w : world) :
  session_post net (login_url cfg) (login_data cfg) = Ok (r, jar) ->
  error_status r = false ->
  main cfg net w
  = (download_queue <~ create_download_queue cfg net (cookie_header jar) ;;
     download_images_multithreaded cfg net download_queue (cookie_header jar))
      (extend w [EvRequest (SessionPost (login_url cfg) (login_data cfg));
                 EvPrint MsgAuthenticated]).
Proof.
  intros Hpost Hstatus.
  unfold main, authenticate, bind at 1, try_except, bind at 1.
  rewrite (get_auth_cookies_succeeds cfg net r jar w Hpost Hstatus).
  unfold bind at 1, print, emit, extend. simpl.
  rewrite <- app_assoc. reflexivity.
Qed.

(** X9: a login answered with any status outside 400-599 counts as a
    success, whatever the body: [get_auth_cookies] returns the one header
    [Cookie] with the cookies of the session as [k=v] joined by [; ] (the
    empty string for no cookie), and [main] prints the success line, builds
    the queue and downloads it with that header. *)
Theorem main_after_login (cfg : config) (net : network) (r : response)
    (jar : dict string) (w : world) :
  session_post net (login_url cfg) (login_data cfg) = Ok (r, jar) ->
  error_status r = false ->
  get_auth_cookies cfg net w
  = (Ok (cookie_header jar),
     extend w [EvRequest (SessionPost (login_url cfg) (login_data cfg))])
  /\ main cfg net w
     = (download_queue <~ create_download_queue cfg net (cookie_header jar) ;;
        download_images_multithreaded cfg net download_queue (cookie_header jar))
         (extend w [EvRequest (SessionPost (login_url cfg) (login_data cfg));
                    EvPrint MsgAuthenticated]).
Proof.
  intros Hpost Hstatus.
  split; [now apply (get_auth_cookies_succeeds cfg net r jar)
         | now apply (main_logged_in cfg net r jar)].
Qed.

(** A login answered with 200 and one cookie. *)
Lemma main_after_login_witness :
  get_auth_cookies Scenario.cfg Scenario.net_good Scenario.w0
  = (Ok (cookie_header [("zbx_session", "abc")]),
     extend Scenario.w0
       [EvRequest (SessionPost (login_url Scenario.cfg) (login_data Scenario.cfg))]).
Proof.
  apply (main_after_login Scenario.cfg Scenario.net_good (mk_response 200 "" None)
           [("zbx_session", "abc")] Scenario.w0); reflexivity.
Defined.

(** ** The downloads and the rest of the world *)

Lemma repeat_length_le {A} (x : A) (n m : nat) (l : list A) :
  l = repeat x n -> n <= m -> List.length l <= m.
Proof. intros ->. now rewrite repeat_length. Qed.

(** What a download does to the world, whatever the answers. *)
Lemma download_image_frame (net : network) (image_url file_path : string)
    (cookies : dict string) (retry_count : nat) (w : world) :
  exists saved n evs w',
    download_image net image_url file_path cookies retry_count w = (Ok saved, w')
    /\ trace w' = trace w ++ evs
    /\ requests_of evs = repeat (ChartPost image_url cookies 30) n
    /\ n <= retry_count
    /\ (saved = false -> n = retry_count /\ files w' = files w)
    /\ (forall path data, In (path, data) (writes_of evs) -> path = file_path)
    /\ (forall p, p <> file_path -> files w' !! p = files w !! p)
    /\ dirs w' = dirs w /\ cwd w' = cwd w.
Proof.
  unfold download_image.
  destruct (first_200 net image_url cookies retry_count)
    as [Hnone | (K & HK & Hok & Hbefore)].
  - destruct (download_attempts_all_fail net image_url file_path cookies retry_count
                retry_count 0 w Hnone) as (evs & Hrun & Hr & Hw & _).
    exists false, retry_count, evs, (extend w evs).
    rewrite Hw. repeat split; auto. intros path data [].
  - destruct (download_attempts_succeed net image_url file_path cookies retry_count
                K retry_count 0 w HK Hbefore Hok)
      as (evs & w' & Hrun & Ht & Hr & Hw & Hf & Hd & Hc).
    exists true, (S K), evs, w'. rewrite Hw, Hf.
    repeat split; auto; try discriminate.
    + intros path data [[= <- _] | []]. reflexivity.
    + intros p Hp. now rewrite lookup_insert_ne.
Qed.


Lemma Forall_repeat {A} (P : A -> Prop) (x : A) (n : nat) :
  P x -> Forall P (repeat x n).
Proof. intros Hx. induction n; simpl; constructor; auto. Qed.

(** The threads of a queue, one after the other. *)
Lemma run_threads_frame (cfg : config) (net : network) (entries : dict string)
    (cookies : dict string) (w : world) :
  exists evs w',
    run_threads cfg net entries cookies w = (Ok tt, w')
    /\ trace w' = trace w ++ evs
    /\ Forall (chart_request_of entries cookies) (requests_of evs)
    /\ List.length (requests_of evs) <= DOWNLOAD_RETRY_COUNT cfg * List.length entries
    /\ (forall path data, In (path, data) (writes_of evs) ->
          exists url, In (url, path) entries)
    /\ (forall p, (forall url, ~ In (url, p) entries) -> files w' !! p = files w !! p)
    /\ dirs w' = dirs w /\ cwd w' = cwd w.
Proof.
  revert w. induction entries as [|[u p] entries IH]; intros w.
  - exists [], w. simpl. rewrite app_nil_r.
    repeat split; auto; try constructor; try lia; try (intros ? ? []).
  - cbn [run_threads]. unfold bind at 1.
    destruct (download_image_frame net u p cookies (DOWNLOAD_RETRY_COUNT cfg) w)
      as (saved & n & evs1 & w1 & -> & Ht1 & Hr1 & Hn & _ & Hw1 & Hf1 & Hd1 & Hc1).
    destruct (IH w1) as (evs2 & w' & -> & Ht2 & Hr2 & Hlen2 & Hw2 & Hf2 & Hd2 & Hc2).
    exists (evs1 ++ evs2), w'.
    rewrite requests_of_app, writes_of_app, length_app, Ht2, Ht1, <- app_assoc.
    repeat split.
    + apply Forall_app. split.
      * rewrite Hr1. apply Forall_repeat. exists u, p. split; [now left | reflexivity].
      * revert Hr2. apply List.Forall_impl.
        intros r (url & path & Hin & ->). exists url, path.
        split; [now right | reflexivity].
    + rewrite Hr1, repeat_length. simpl. lia.
    + intros path data Hin. apply in_app_or in Hin as [Hin | Hin].
      * apply Hw1 in Hin as ->. exists u. now left.
      * destruct (Hw2 path data Hin) as [url Hurl]. exists url. now right.
    + intros p' Hp'. rewrite Hf2, Hf1; [reflexivity | |].
      * intros ->. apply (Hp' u). now left.
      * intros url Hin. apply (Hp' url). now right.
    + congruence.
    + congruence.
Qed.


(** A download removes no file, and leaves its destination there when one
    of its attempts is answered with a 200: then the destination holds the
    body of the first such answer. *)
Lemma download_image_files (net : network) (image_url file_path : string)
    (cookies : dict string) (retry_count : nat) (w : world) :
  exists saved w',
    download_image net image_url file_path cookies retry_count w = (Ok saved, w')
    /\ (forall p, is_Some (files w !! p) -> is_Some (files w' !! p))
    /\ (forall K, K < retry_count ->
          (forall i, i < K -> is_200 (chart_post net image_url cookies i) = false) ->
          is_200 (chart_post net image_url cookies K) = true ->
          files w' !! file_path = Some (body_of (chart_post net image_url cookies K))).
Proof.
  unfold download_image.
  destruct (first_200 net image_url cookies retry_count)
    as [Hnone | (K & HK & Hok & Hbefore)].
  - destruct (download_attempts_all_fail net image_url file_path cookies retry_count
                retry_count 0 w Hnone) as (evs & -> & _).
    exists false, (extend w evs). split; [reflexivity |].
    split; [auto |].
    intros K' HK' _ Hok'. rewrite (Hnone K' HK') in Hok'. discriminate.
  - destruct (download_attempts_succeed net image_url file_path cookies retry_count
                K retry_count 0 w HK Hbefore Hok)
      as (evs & w' & -> & _ & _ & _ & Hf & _).
    exists true, w'. split; [reflexivity |]. rewrite Hf. simpl. split.
    + intros p Hp. apply lookup_insert_is_Some.
      destruct (decide (file_path = p)); auto.
    + intros K' HK' Hbefore' Hok'.
      assert (K' = K) as ->.
      { destruct (Nat.lt_trichotomy K' K) as [Hlt | [Heq | Hgt]]; [| exact Heq |].
        - rewrite (Hbefore K' Hlt) in Hok'. discriminate.
        - rewrite (Hbefore' K Hgt) in Hok. discriminate. }
      apply lookup_insert_eq.
Qed.

Lemma run_threads_grow (cfg : config) (net : network) (entries : dict string)
    (cookies : dict string) (w : world) :
  exists w',
    run_threads cfg net entries cookies w = (Ok tt, w')
    /\ (forall p, is_Some (files w !! p) -> is_Some (files w' !! p)).
Proof.
  revert w. induction entries as [|[u p] entries IH]; intros w.
  - exists w. split; [reflexivity | auto].
  - cbn [run_threads]. unfold bind at 1.
    destruct (download_image_files net u p cookies (DOWNLOAD_RETRY_COUNT cfg) w)
      as (saved & w1 & -> & Hgrow & _).
    destruct (IH w1) as (w' & -> & Hgrow').
    exists w'. split; [reflexivity | auto].
Qed.

Lemma run_threads_files (cfg : config) (net : network) (entries : dict string)
    (cookies : dict string) (w : world) (url file_path : string) (K : nat) :
  In (url, file_path) entries ->
  K < DOWNLOAD_RETRY_COUNT cfg ->
  (forall i, i < K -> is_200 (chart_post net url cookies i) = false) ->
  is_200 (chart_post net url cookies K) = true ->
  exists w',
    run_threads cfg net entries cookies w = (Ok tt, w')
    /\ is_Some (files w' !! file_path)
    /\ (List.NoDup (map snd entries) ->
        files w' !! file_path = Some (body_of (chart_post net url cookies K))).
Proof.
  intros Hin HK Hbefore Hok. revert w.
  induction entries as [|[u p] entries IH]; intros w; [contradiction |].
  cbn [run_threads]. unfold bind at 1.
  destruct (download_image_files net u p cookies (DOWNLOAD_RETRY_COUNT cfg) w)
    as (saved & w1 & -> & Hgrow & Hbody).
  destruct Hin as [[= -> ->] | Hin].
  - specialize (Hbody K HK Hbefore Hok).
    destruct (run_threads_frame cfg net entries cookies w1)
      as (evs & w' & Hrun & _ & _ & _ & _ & Hframe & _).
    destruct (run_threads_grow cfg net entries cookies w1) as (w'' & Hrun' & Hgrow').
    rewrite Hrun in Hrun'. injection Hrun' as <-.
    exists w'. split; [exact Hrun |]. split.
    + apply Hgrow'. rewrite Hbody. eauto.
    + intros Hnodup. simpl in Hnodup. apply NoDup_cons_iff in Hnodup as [Hfresh _].
      rewrite Hframe; [exact Hbody |].
      intros url' Hin'. apply Hfresh.
      change file_path with (snd (url', file_path)). now apply in_map.
  - destruct (IH Hin w1) as (w' & -> & Hsome & Hcontent).
    exists w'. split; [reflexivity | split; [exact Hsome |]].
    intros Hnodup. simpl in Hnodup. apply NoDup_cons_iff in Hnodup as [_ Hnodup].
    now apply Hcontent.
Qed.



(** ** What the queue builder does to the outside *)

Lemma makedirs_of_app (a b : list event) :
  makedirs_of (a ++ b) = makedirs_of a ++ makedirs_of b.
Proof.
  induction a as [|[] a IH]; simpl; try exact IH; [reflexivity |].
  now rewrite IH.
Qed.

Lemma quiet_app (a b : list event) (made_a made_b : list string) :
  quiet a made_a -> quiet b made_b -> quiet (a ++ b) (made_a ++ made_b).
Proof.
  intros [Hwa Hma] [Hwb Hmb]. unfold quiet.
  now rewrite writes_of_app, makedirs_of_app, Hwa, Hwb, Hma, Hmb.
Qed.

Lemma quiet_skipped (w : world) (entries : list (string * string)) :
  quiet (skipped w entries) [].
Proof.
  unfold skipped. induction (List.filter _ entries) as [|e l IH]; [split; reflexivity |].
  exact IH.
Qed.

Lemma quiet_resolve_host (cfg : config) (net : network) (host_name : string) :
  quiet (events_of (resolve_host cfg net host_name)) [].
Proof.
  unfold quiet. run_calls.
  destruct (api_post net _ _ _) as [r|e]; simpl;
    [| destruct (caught_at_252 e); split; reflexivity].
  destruct ((400 <=? status_code r)%Z && (status_code r <? 600)%Z); simpl;
    [split; reflexivity |].
  destruct (parsed r) as [data|]; simpl; [| split; reflexivity].
  destruct (dict_get "result" data) as [[|first rest]|]; simpl; try (split; reflexivity).
  destruct (dict_get "hostid" first); split; reflexivity.
Qed.

Lemma quiet_list_items (cfg : config) (net : network) (host_name host_id : string) :
  quiet (events_of (list_items cfg net host_name host_id)) [].
Proof.
  unfold quiet. run_calls.
  destruct (api_post net _ _ _) as [r|e]; simpl;
    [| destruct (caught_at_262 e); split; reflexivity].
  destruct ((400 <=? status_code r)%Z && (status_code r <? 600)%Z); simpl;
    [split; reflexivity |].
  destruct (parsed r) as [data|]; simpl; [| split; reflexivity].
  destruct (dict_get "result" data); split; reflexivity.
Qed.

(** The loop over the items prints and nothing else. *)
Lemma queue_items_quiet (cfg : config) (host_name host_dir : string)
    (items : list record) (q : dict string) (w : world) :
  exists evs,
    snd (queue_items cfg host_name host_dir items q w) = extend w evs
    /\ requests_of evs = [] /\ quiet evs [].
Proof.
  revert q w. induction items as [|item items IH]; intros q w.
  - exists []. simpl. rewrite extend_nil. repeat split.
  - rewrite queue_items_cons.
    destruct (item_entry cfg host_name host_dir item) as [e|] eqn:He.
    + rewrite (queue_item_run _ _ _ _ e _ _ He).
      destruct (path_exists w (snd e)).
      * destruct (IH q (extend w [EvPrint (MsgSkipping (snd e))]))
          as (evs & -> & Hr & Hw & Hm).
        exists ([EvPrint (MsgSkipping (snd e))] ++ evs).
        rewrite extend_extend. repeat split; assumption.
      * apply IH.
    + destruct (queue_item_raises cfg host_name host_dir item q w He) as [key ->].
      exists []. simpl. rewrite extend_nil. repeat split.
Qed.

(** The body of the host loop: what it sends, and the one directory it may
    make. *)
Lemma queue_host_events (cfg : config) (net : network) (host_name : string)
    (q : dict string) (w : world) :
  exists evs,
    trace (snd (queue_host cfg net host_name q w)) = trace w ++ evs
    /\ requests_of evs = host_requests cfg net host_name
    /\ quiet evs (host_directories cfg net (cwd w) host_name)
    /\ files (snd (queue_host cfg net host_name q w)) = files w
    /\ cwd (snd (queue_host cfg net host_name q w)) = cwd w
    /\ (forall p, p ∈ dirs (snd (queue_host cfg net host_name q w))
                  <-> p ∈ dirs w \/ In p (makedirs_of evs)).
Proof.
  rewrite queue_host_run. cbv zeta. unfold host_requests, host_directories.
  assert (Hr1 : requests_of (resolving_events cfg net host_name)
                = [host_get_request cfg host_name]).
  { unfold resolving_events. cbn [requests_of]. apply resolve_host_requests. }
  assert (Hq1 : quiet (resolving_events cfg net host_name) []).
  { unfold resolving_events.
    apply (quiet_app [EvPrint (MsgProcessingHost host_name)] _ [] []);
      [split; reflexivity | apply quiet_resolve_host]. }
  assert (Hskip : forall r : result (dict string),
    exists evs0,
      trace (snd (r, extend w (resolving_events cfg net host_name))) = trace w ++ evs0
      /\ requests_of evs0 = [host_get_request cfg host_name]
      /\ quiet evs0 []
      /\ files (snd (r, extend w (resolving_events cfg net host_name))) = files w
      /\ cwd (snd (r, extend w (resolving_events cfg net host_name))) = cwd w
      /\ (forall p, p ∈ dirs (snd (r, extend w (resolving_events cfg net host_name)))
                    <-> p ∈ dirs w \/ In p (makedirs_of evs0))).
  { intros r. exists (resolving_events cfg net host_name). cbn [snd].
    destruct Hq1 as [Hw1 Hm1]. rewrite Hm1.
    repeat split; auto; simpl; tauto. }
  destruct (resolution cfg net host_name) as [[host_id|]|e];
    [| apply Hskip | apply Hskip].
  set (host_dir := os_path_join (cwd w) host_name).
  set (evs := resolving_events cfg net host_name ++ [EvMakedirs host_dir]
              ++ listing_events cfg net host_name host_id).
  set (w1 := extend (with_directory w (resolving_events cfg net host_name) host_dir)
                    (listing_events cfg net host_name host_id)).
  assert (Hr : requests_of evs
               = [host_get_request cfg host_name; item_get_request cfg host_id]).
  { unfold evs, listing_events. rewrite !requests_of_app, Hr1, list_items_requests.
    reflexivity. }
  assert (Hq : quiet evs [host_dir]).
  { unfold evs, listing_events.
    apply (quiet_app _ _ [] [host_dir]); [exact Hq1 |].
    apply (quiet_app [EvMakedirs host_dir] _ [host_dir] []);
      [split; reflexivity | apply quiet_list_items]. }
  assert (Ht : trace w1 = trace w ++ evs).
  { unfold w1, evs, extend, with_directory. cbn [trace]. now rewrite <- !app_assoc. }
  assert (Hd : forall extra, makedirs_of extra = [] ->
                 forall p, p ∈ dirs w1 <-> p ∈ dirs w \/ In p (makedirs_of (evs ++ extra))).
  { intros extra Hextra p. rewrite makedirs_of_app, Hextra, app_nil_r.
    destruct Hq as [_ ->]. unfold w1, extend, with_directory. cbn [dirs In].
    rewrite elem_of_union, elem_of_singleton. intuition. }
  assert (Hdone : forall r,
    exists evs0,
      trace (snd (r, w1)) = trace w ++ evs0
      /\ requests_of evs0 = [host_get_request cfg host_name; item_get_request cfg host_id]
      /\ quiet evs0 [host_dir]
      /\ files (snd (r : result (dict string), w1)) = files w
      /\ cwd (snd (r, w1)) = cwd w
      /\ (forall p, p ∈ dirs (snd (r, w1)) <-> p ∈ dirs w \/ In p (makedirs_of evs0))).
  { intros r. exists evs. cbn [snd]. repeat split; try assumption; try apply Hq.
    - specialize (Hd [] eq_refl p). rewrite app_nil_r in Hd. apply Hd.
    - specialize (Hd [] eq_refl p). rewrite app_nil_r in Hd. apply Hd. }
  destruct (listing cfg net host_name host_id) as [[items|]|e];
    [| apply Hdone | apply Hdone].
  destruct (queue_items_quiet cfg host_name host_dir items q w1)
    as (extra & -> & Hrx & Hwx & Hmx).
  exists (evs ++ extra). cbn [extend trace files dirs cwd].
  rewrite Ht, <- app_assoc, requests_of_app, Hr, Hrx, app_nil_r.
  split; [reflexivity |]. split; [reflexivity |].
  split.
  { replace [host_dir] with ([host_dir] ++ []) by reflexivity.
    apply quiet_app; [exact Hq | split; assumption]. }
  split; [reflexivity |]. split; [reflexivity |].
  apply (Hd extra Hmx).
Qed.

Lemma host_directories_configured (cfg : config) (net : network)
    (here host_name : string) (hosts : list string) :
  In host_name hosts ->
  Forall (fun d => exists h, In h hosts /\ d = os_path_join here h)
         (host_directories cfg net here host_name).
Proof.
  intros Hin. unfold host_directories.
  destruct (resolution cfg net host_name) as [[host_id|]|e]; constructor; eauto.
Qed.

(** The loop over the hosts: what it sends and makes. *)
Lemma queue_hosts_events (cfg : config) (net : network) (hosts : list string)
    (q : dict string) (w : world) :
  exists evs,
    trace (snd (queue_hosts cfg net hosts q w)) = trace w ++ evs
    /\ writes_of evs = []
    /\ files (snd (queue_hosts cfg net hosts q w)) = files w
    /\ cwd (snd (queue_hosts cfg net hosts q w)) = cwd w
    /\ (forall p, p ∈ dirs (snd (queue_hosts cfg net hosts q w))
                  <-> p ∈ dirs w \/ In p (makedirs_of evs))
    /\ Forall (fun d => exists h, In h hosts /\ d = os_path_join (cwd w) h)
              (makedirs_of evs)
    /\ (forall q', fst (queue_hosts cfg net hosts q w) = Ok q' ->
          requests_of evs = flat_map (host_requests cfg net) hosts
          /\ makedirs_of evs = flat_map (host_directories cfg net (cwd w)) hosts).
Proof.
  revert q w. induction hosts as [|host_name hosts IH]; intros q w.
  - exists []. simpl. rewrite app_nil_r.
    repeat split; auto; try constructor; tauto.
  - rewrite queue_hosts_cons.
    destruct (queue_host_events cfg net host_name q w)
      as (evs1 & Ht1 & Hr1 & [Hw1 Hm1] & Hf1 & Hc1 & Hd1).
    assert (Hmade1 : Forall (fun d => exists h, In h (host_name :: hosts)
                                                /\ d = os_path_join (cwd w) h)
                            (makedirs_of evs1)).
    { rewrite Hm1. apply host_directories_configured. now left. }
    destruct (queue_host cfg net host_name q w) as [[q1|e] w1];
      cbn [snd] in Ht1, Hf1, Hc1, Hd1.
    + destruct (IH q1 w1) as (evs2 & Ht2 & Hw2 & Hf2 & Hc2 & Hd2 & Hmade2 & Hok2).
      exists (evs1 ++ evs2).
      rewrite Ht2, Ht1, <- app_assoc, writes_of_app, Hw1, Hw2, Hf2, Hf1, Hc2, Hc1,
        makedirs_of_app, requests_of_app.
      repeat split; auto.
      * intros Hp. apply Hd2 in Hp as [Hp | Hp].
        -- apply Hd1 in Hp as [Hp | Hp]; [now left | right].
           apply in_or_app. now left.
        -- right. apply in_or_app. now right.
      * intros [Hp | Hp]; apply Hd2.
        -- left. apply Hd1. now left.
        -- apply in_app_or in Hp as [Hp | Hp]; [left; apply Hd1; now right | now right].
      * apply Forall_app. split; [exact Hmade1 |].
        rewrite Hc1 in Hmade2. revert Hmade2. apply List.Forall_impl.
        intros d (h & Hh & ->). exists h. split; [now right | reflexivity].
      * cbn [flat_map]. rewrite ?Hr1. f_equal. now apply (Hok2 q').
      * cbn [flat_map]. rewrite ?Hm1. f_equal. rewrite <- Hc1. now apply (Hok2 q').
    + exists evs1. cbn [fst snd].
      repeat split; auto; try discriminate; apply Hd1.
Qed.


(** X14: there is no retry in the enumeration.  When the queue builder
    returns, it has sent, for each configured host in order, one
    [host.get] and, if the host resolved, one [item.get] for the id of the
    first record, and nothing else; and it has made the directory of each
    host that resolved, also of one whose listing failed or was empty. *)
Theorem create_download_queue_traffic (cfg : config) (net : network)
    (cookies : dict string) (q : dict string) (w w' : world) :
  create_download_queue cfg net cookies w = (Ok q, w') ->
  exists evs,
    trace w' = trace w ++ evs
    /\ requests_of evs = flat_map (host_requests cfg net) (HOST_LIST cfg)
    /\ makedirs_of evs = flat_map (host_directories cfg net (cwd w)) (HOST_LIST cfg).
Proof.
  unfold create_download_queue. intros Hrun.
  destruct (queue_hosts_events cfg net (HOST_LIST cfg) [] w)
    as (evs & Ht & _ & _ & _ & _ & _ & Hok).
  rewrite Hrun in Ht, Hok. cbn [fst snd] in Ht, Hok.
  exists evs. destruct (Hok q eq_refl) as [Hr Hm]. auto.
Qed.

(** The scenario: two requests for [srv-a], one for [srv-b]. *)
Lemma create_download_queue_traffic_witness :
  exists evs,
    trace (snd (create_download_queue Scenario.cfg Scenario.net_good
                  Scenario.session_cookies Scenario.w0))
    = trace Scenario.w0 ++ evs
    /\ requests_of evs
       = flat_map (host_requests Scenario.cfg Scenario.net_good)
                  (HOST_LIST Scenario.cfg)
    /\ makedirs_of evs
       = flat_map (host_directories Scenario.cfg Scenario.net_good (cwd Scenario.w0))
                  (HOST_LIST Scenario.cfg).
Proof.
  apply (create_download_queue_traffic Scenario.cfg Scenario.net_good
           Scenario.session_cookies [(Scenario.cpu_url, Scenario.cpu_path)]
           Scenario.w0).
  apply injective_projections; [vm_compute; reflexivity | reflexivity].
Defined.

(** ** Runs that fetch nothing *)

Lemma queue_hosts_unresolved (cfg : config) (net : network) (hosts : list string)
    (q : dict string) (w : world) :
  Forall (unresolved cfg net) hosts ->
  queue_hosts cfg net hosts q w
  = (Ok q, extend w (flat_map (resolving_events cfg net) hosts)).
Proof.
  intros Hall. revert w. induction Hall as [|host_name hosts Hun _ IH]; intros w.
  - simpl. unfold ret. now rewrite extend_nil.
  - rewrite queue_hosts_cons.
    rewrite (queue_host_skips_unresolved cfg net host_name q w
               (unresolved_resolution cfg net host_name Hun)).
    rewrite IH, extend_extend. reflexivity.
Qed.

Lemma resolving_events_flat (cfg : config) (net : network) (hosts : list string) :
  requests_of (flat_map (resolving_events cfg net) hosts)
  = map (host_get_request cfg) hosts
  /\ quiet (flat_map (resolving_events cfg net) hosts) [].
Proof.
  induction hosts as [|host_name hosts [IHr IHq]]; [repeat split |].
  cbn [flat_map map]. rewrite requests_of_app, IHr. split.
  - unfold resolving_events. cbn [requests_of]. rewrite resolve_host_requests.
    reflexivity.
  - apply (quiet_app _ _ [] []); [| exact IHq].
    unfold resolving_events.
    apply (quiet_app [EvPrint (MsgProcessingHost host_name)] _ [] []);
      [split; reflexivity | apply quiet_resolve_host].
Qed.

(** X15: when the login succeeds and no configured host resolves, and so
    also when [HOST_LIST] is empty as in the source, [main] ends normally
    after the login request and one [host.get] for each host, in order: it
    sends no other request, makes no directory, writes no file, and its
    last line is the one for an empty queue. *)
Theorem main_without_resolved_host (cfg : config) (net : network) (r : response)
    (jar : dict string) (w : world) :
  session_post net (login_url cfg) (login_data cfg) = Ok (r, jar) ->
  error_status r = false ->
  Forall (unresolved cfg net) (HOST_LIST cfg) ->
  exists evs,
    main cfg net w = (Ok tt, extend w (evs ++ [EvPrint MsgNoImages]))
    /\ requests_of (evs ++ [EvPrint MsgNoImages])
       = SessionPost (login_url cfg) (login_data cfg)
         :: map (host_get_request cfg) (HOST_LIST cfg)
    /\ quiet (evs ++ [EvPrint MsgNoImages]) [].
Proof.
  intros Hpost Hstatus Hall.
  destruct (resolving_events_flat cfg net (HOST_LIST cfg)) as [Hr Hq].
  exists ([EvRequest (SessionPost (login_url cfg) (login_data cfg));
           EvPrint MsgAuthenticated]
          ++ flat_map (resolving_events cfg net) (HOST_LIST cfg)).
  split; [| split].
  - rewrite (main_logged_in cfg net r jar w Hpost Hstatus).
    unfold bind at 1, create_download_queue.
    rewrite (queue_hosts_unresolved cfg net (HOST_LIST cfg) [] _ Hall).
    unfold download_images_multithreaded, print, emit, extend. simpl.
    rewrite <- !app_assoc. reflexivity.
  - rewrite !requests_of_app, Hr. simpl. now rewrite app_nil_r.
  - apply (quiet_app _ _ [] []); [| split; reflexivity].
    apply (quiet_app _ _ [] []); [split; reflexivity | exact Hq].
Qed.

(** The login succeeds, the one configured host answers with a 500. *)
Lemma main_without_resolved_host_witness :
  exists evs,
    main (mk_config Scenario.api_url "token" "zbx.example" "user" "secret" ["srv-b"]
            (mk_datetime 2024 1 1 0 0 0) (mk_datetime 2024 1 2 0 0 0) 1920 200 3)
         Scenario.net_good Scenario.w0
    = (Ok tt, extend Scenario.w0 (evs ++ [EvPrint MsgNoImages]))
    /\ requests_of (evs ++ [EvPrint MsgNoImages])
       = SessionPost (login_url Scenario.cfg) (login_data Scenario.cfg)
         :: map (host_get_request Scenario.cfg) ["srv-b"]
    /\ quiet (evs ++ [EvPrint MsgNoImages]) [].
Proof.
  apply (main_without_resolved_host
           (mk_config Scenario.api_url "token" "zbx.example" "user" "secret" ["srv-b"]
              (mk_datetime 2024 1 1 0 0 0) (mk_datetime 2024 1 2 0 0 0) 1920 200 3)
           Scenario.net_good (mk_response 200 "" None) [("zbx_session", "abc")]
           Scenario.w0).
  - reflexivity.
  - reflexivity.
  - constructor; [vm_compute; reflexivity | constructor].
Defined.

(** ** The queue that is returned *)

Lemma dict_get_None_keys {V} (k : string) (d : dict V) :
  dict_get k d = None <-> ~ In k (keys d).
Proof.
  induction d as [|[k' v'] d IH]; simpl; [tauto |].
  destruct (String.eqb_spec k k') as [->|Hne].
  - split; [discriminate | intros H; exfalso; apply H; now left].
  - rewrite IH. split; [intros H [Heq | Hin]; [congruence | contradiction] | tauto].
Qed.

Lemma keys_dict_set {V} (k : string) (v : V) (d : dict V) :
  keys (dict_set k v d)
  = match dict_get k d with Some _ => keys d | None => keys d ++ [k] end.
Proof.
  induction d as [|[k' v'] d IH]; simpl; [reflexivity |].
  destruct (String.eqb_spec k k') as [->|Hne]; simpl; [reflexivity |].
  rewrite IH. now destruct (dict_get k d).
Qed.

Lemma NoDup_snoc {A} (l : list A) (x : A) :
  List.NoDup l -> ~ In x l -> List.NoDup (l ++ [x]).
Proof.
  induction l as [|a l IH]; simpl; intros Hnodup Hx.
  - constructor; [intros [] | constructor].
  - apply NoDup_cons_iff in Hnodup as [Ha Hnodup].
    apply NoDup_cons_iff. split.
    + intros Hin. apply in_app_or in Hin as [Hin | [<- | []]]; [contradiction |].
      apply Hx. now left.
    + apply IH; [exact Hnodup |]. intros Hin. apply Hx. now right.
Qed.

(** An assignment keeps the keys of a dict distinct. *)
Lemma NoDup_keys_dict_set {V} (k : string) (v : V) (d : dict V) :
  List.NoDup (keys d) -> List.NoDup (keys (dict_set k v d)).
Proof.
  intros Hnodup. rewrite keys_dict_set.
  destruct (dict_get k d) eqn:Hget; [exact Hnodup |].
  apply dict_get_None_keys in Hget. now apply NoDup_snoc.
Qed.

Lemma dict_set_In {V} (k u : string) (v p : V) (d : dict V) :
  In (u, p) (dict_set k v d) -> (u, p) = (k, v) \/ In (u, p) d.
Proof.
  induction d as [|[k' v'] d IH]; simpl.
  - intros [H | []]. left. congruence.
  - destruct (String.eqb_spec k k') as [->|Hne]; simpl.
    + intros [H | H]; [left; congruence | right; now right].
    + intros [H | H]; [right; now left |].
      destruct (IH H); [now left | right; now right].
Qed.

Lemma keeps_absent (w0 w : world) (p : string) :
  keeps w0 w -> path_exists w p = false -> path_exists w0 p = false.
Proof.
  intros [_ Hk] Hno. destruct (path_exists w0 p) eqn:H0; [| reflexivity].
  rewrite (Hk p H0) in Hno. discriminate.
Qed.

Lemma sound_queue_insert_all (cfg : config) (net : network) (w0 w : world)
    (entries : list (string * string)) (q : dict string) :
  keeps w0 w ->
  (forall e, In e entries -> planned_in cfg net (cwd w0) (HOST_LIST cfg) e) ->
  sound_queue cfg net w0 q ->
  sound_queue cfg net w0 (insert_all (missing w entries) q).
Proof.
  intros Hkeeps Hplanned.
  assert (Hmissing : forall e, In e (missing w entries) ->
            planned_in cfg net (cwd w0) (HOST_LIST cfg) e
            /\ path_exists w0 (snd e) = false).
  { intros e He. apply missing_In in He as [Hin Hno].
    split; [now apply Hplanned | now apply (keeps_absent w0 w)]. }
  revert q. induction (missing w entries) as [|[u p] l IH]; intros q Hq; [exact Hq |].
  cbn [insert_all fold_left fst snd]. fold (insert_all l (dict_set u p q)).
  apply IH.
  - intros e He. apply Hmissing. now right.
  - destruct Hq as [Hnodup Hin]. split; [now apply NoDup_keys_dict_set |].
    intros url file_path Hentry.
    apply dict_set_In in Hentry as [[= -> ->] | Hentry]; [| now apply Hin].
    apply (Hmissing (u, p)). now left.
Qed.

Lemma queue_hosts_sound (cfg : config) (net : network) (w0 : world)
    (hosts : list string) :
  forall (q q' : dict string) (w w' : world),
    incl hosts (HOST_LIST cfg) -> keeps w0 w ->
    sound_queue cfg net w0 q ->
    queue_hosts cfg net hosts q w = (Ok q', w') ->
    sound_queue cfg net w0 q'.
Proof.
  induction hosts as [|host_name hosts IH]; intros q q' w w' Hincl Hkeeps Hq Hrun.
  - injection Hrun as <- _. exact Hq.
  - rewrite queue_hosts_cons in Hrun.
    pose proof (queue_host_keeps cfg net host_name q w) as Hk1.
    destruct (queue_host cfg net host_name q w) as [[q1|err] w1] eqn:Hhost;
      [| discriminate].
    simpl in Hk1.
    apply (IH q1 q' w1 w'); auto.
    + intros h Hh. apply Hincl. now right.
    + now apply (keeps_trans w0 w w1).
    + rewrite queue_host_run in Hhost. cbv zeta in Hhost.
      destruct (resolution cfg net host_name) as [[host_id|]|err] eqn:Hres;
        [| injection Hhost as <- _; exact Hq | discriminate].
      destruct (listing cfg net host_name host_id) as [[items|]|err] eqn:Hlist;
        [| injection Hhost as <- _; exact Hq | discriminate].
      destruct (queue_items_returns _ _ _ _ _ _ _ _ Hhost) as [entries Hentries].
      rewrite (queue_items_run _ _ _ _ entries _ _ Hentries) in Hhost.
      injection Hhost as <- _.
      apply sound_queue_insert_all; [| | exact Hq].
      * eapply keeps_trans; [exact Hkeeps |].
        eapply keeps_trans; [apply keeps_with_directory | apply keeps_extend].
      * intros e Hin.
        destruct (entries_of_In_entry _ _ _ _ _ e Hentries Hin) as (item & Hitem & He).
        exists host_name, items, item.
        destruct Hkeeps as [Hc _]. rewrite <- Hc.
        repeat split; auto.
        -- apply Hincl. now left.
        -- unfold host_items. now rewrite Hres, Hlist.
Qed.

(** X16: in the queue that the queue builder returns the URLs are pairwise
    distinct, and every entry is the URL and the destination of an item of
    a configured host that resolved and whose items were listed, with no
    file or directory at the destination when the run started. *)
Theorem create_download_queue_sound (cfg : config) (net : network)
    (cookies : dict string) (q : dict string) (w w' : world) :
  create_download_queue cfg net cookies w = (Ok q, w') ->
  List.NoDup (keys q)
  /\ forall url file_path,
       In (url, file_path) q ->
       planned_in cfg net (cwd w) (HOST_LIST cfg) (url, file_path)
       /\ path_exists w file_path = false.
Proof.
  unfold create_download_queue. intros Hrun.
  apply (queue_hosts_sound cfg net w (HOST_LIST cfg) [] q w w').
  - apply incl_refl.
  - apply keeps_refl.
  - split; [constructor | intros ? ? []].
  - exact Hrun.
Qed.

(** The queue of the scenario. *)
Lemma create_download_queue_sound_witness :
  List.NoDup (keys [(Scenario.cpu_url, Scenario.cpu_path)])
  /\ forall url file_path,
       In (url, file_path) [(Scenario.cpu_url, Scenario.cpu_path)] ->
       planned_in Scenario.cfg Scenario.net_good (cwd Scenario.w0)
                  (HOST_LIST Scenario.cfg) (url, file_path)
       /\ path_exists Scenario.w0 file_path = false.
Proof.
  apply (create_download_queue_sound Scenario.cfg Scenario.net_good
           Scenario.session_cookies [(Scenario.cpu_url, Scenario.cpu_path)]
           Scenario.w0
           (snd (create_download_queue Scenario.cfg Scenario.net_good
                   Scenario.session_cookies Scenario.w0))).
  apply injective_projections; [vm_compute; reflexivity | reflexivity].
Defined.

(** ** Items without an id or a name *)

Lemma queue_items_app (cfg : config) (host_name host_dir : string)
    (before after : list record) (q : dict string) (w : world) :
  queue_items cfg host_name host_dir (before ++ after) q w
  = match queue_items cfg host_name host_dir before q w with
    | (Ok q', w') => queue_items cfg host_name host_dir after q' w'
    | (Raise e, w') => (Raise e, w')
    end.
Proof.
  revert q w. induction before as [|item before IH]; intros q w; [reflexivity |].
  cbn [app]. rewrite !queue_items_cons.
  destruct (queue_item cfg host_name host_dir item q w) as [[q1|e] w1];
    [apply IH | reflexivity].
Qed.

(** X17: an item without [itemid], or with [itemid] and without [name],
    makes the loop over the items raise the [KeyError] of that key; no
    handler of [create_download_queue] or [main] catches it.  The items
    before it have been processed, the items after it are not, and the
    queue built so far is lost with the exception. *)
Theorem item_without_field_raises (cfg : config) (host_name host_dir : string)
    (before after : list record) (item : record)
    (entries : list (string * string)) (q : dict string) (w : world) :
  entries_of cfg host_name host_dir before entries ->
  item_entry cfg host_name host_dir item = None ->
  queue_items cfg host_name host_dir (before ++ item :: after) q w
  = (Raise (KeyError (missing_key item)), extend w (skipped w entries))
  /\ caught_at_262 (KeyError (missing_key item)) = false.
Proof.
  intros Hbefore Hitem. split; [| reflexivity].
  rewrite queue_items_app, (queue_items_run _ _ _ _ entries _ _ Hbefore).
  rewrite queue_items_cons.
  unfold item_entry in Hitem. unfold queue_item, subscript, bind, raise, missing_key.
  destruct (dict_get "itemid" item); [| reflexivity].
  destruct (dict_get "name" item); [discriminate | reflexivity].
Qed.

(** An item with an id and no name, after the item [CPU]. *)
Lemma item_without_field_raises_witness :
  queue_items Scenario.cfg "srv-a" "/work/srv-a"
    ([Scenario.cpu_item] ++ [("itemid", "9")] :: [Scenario.disk_item]) [] Scenario.w0
  = (Raise (KeyError (missing_key [("itemid", "9")])),
     extend Scenario.w0
       (skipped Scenario.w0 [(Scenario.cpu_url, Scenario.cpu_path)]))
  /\ caught_at_262 (KeyError (missing_key [("itemid", "9")])) = false.
Proof.
  apply (item_without_field_raises Scenario.cfg "srv-a" "/work/srv-a"
           [Scenario.cpu_item] [Scenario.disk_item] [("itemid", "9")]
           [(Scenario.cpu_url, Scenario.cpu_path)] [] Scenario.w0).
  - constructor; [vm_compute; reflexivity | constructor].
  - reflexivity.
Defined.

(** ** Percent-encoding again *)

Lemma quote_safe_not_percent (c : ascii) : quote_safe c = true -> quote_char c = String c "".
Proof. unfold quote_char. now intros ->. Qed.

(** X18: percent-encoding loses nothing and leaves safe text alone:
    decoding an encoded value gives the value back, and a value made of
    letters, digits, [_.-~] and [/] only, such as a numeric item id, is
    its own encoding and so stands verbatim in the URL. *)
Theorem quote_round_trip (s : string) :
  unquote (quote s) = s
  /\ (all_chars quote_safe s = true -> quote s = s).
Proof.
  split; [apply unquote_quote |].
  induction s as [|c s IH]; [reflexivity |].
  cbn [all_chars quote]. intros Hall. apply andb_true_iff in Hall as [Hc Hs].
  rewrite (quote_safe_not_percent c Hc), (IH Hs). reflexivity.
Qed.

(** The item id [10084]. *)
Lemma quote_round_trip_witness : quote "10084" = "10084".
Proof. apply (proj2 (quote_round_trip "10084")). reflexivity. Defined.

(** ** All the requests of a run *)

Lemma download_images_requests (cfg : config) (net : network) (q : dict string)
    (cookies : dict string) (w : world) :
  exists evs w',
    download_images_multithreaded cfg net q cookies w = (Ok tt, w')
    /\ trace w' = trace w ++ evs
    /\ Forall (chart_request_of q cookies) (requests_of evs).
Proof.
  unfold download_images_multithreaded. destruct q as [|entry q].
  - exists [EvPrint MsgNoImages], (extend w [EvPrint MsgNoImages]).
    repeat split. constructor.
  - set (queue := entry :: q) in *. unfold bind at 1, print, emit at 1.
    unfold bind at 1.
    destruct (run_threads_frame cfg net queue cookies
                (extend w [EvPrint (MsgStarting (List.length queue))]))
      as (evs & w1 & Hrun & Ht & Hr & _).
    unfold extend in Hrun. rewrite Hrun.
    exists ([EvPrint (MsgStarting (List.length queue))] ++ evs ++ [EvPrint MsgAllDone]),
           (extend w1 [EvPrint MsgAllDone]).
    rewrite !requests_of_app. cbn [requests_of app]. rewrite app_nil_r.
    repeat split; [| exact Hr].
    simpl. simpl in Ht. rewrite Ht, <- !app_assoc. reflexivity.
Qed.


